(** * T-Display-S3 ST7789 driver: orientation-aware addressing

    A shallow embedding of [main/main.c]: the orientation switch of
    [set_display_orientation], the logical-to-physical window translation
    and command sequencing of [set_draw_area], [clear_screen], the LVGL
    flush callback [lvgl_flush_cb] and the start-up path of [init_display]
    and [init_lvgl].

    C [int] values are integers in [Z] with 32-bit two's complement
    wrap-around written out, [uint16_t] values are reduced modulo 2^16 and
    parameter bytes are masked with [0xFF] as in the source.  The ESP-IDF
    and LVGL functions the file calls are external: each call is recorded in
    a trace, and its result is decided by an oracle over the calls made so
    far, so that every theorem holds for every behaviour of the bus and of
    the allocator.  Logging ([ESP_LOGx]) is not modelled. *)

From Stdlib Require Import ZArith List Lia Bool.
Import ListNotations.
Local Open Scope Z_scope.

(** ** Machine integers *)

Module CInt.

Definition is_int (z : Z) : Prop := - 2 ^ 31 <= z < 2 ^ 31.

(** Two's complement reduction of a mathematical result to [int]. *)
Definition wrap_int (z : Z) : Z := (z + 2 ^ 31) mod 2 ^ 32 - 2 ^ 31.

Definition add_int (a b : Z) : Z := wrap_int (a + b).
Definition sub_int (a b : Z) : Z := wrap_int (a - b).
Definition mul_int (a b : Z) : Z := wrap_int (a * b).

(** Conversion of an [int] to [uint16_t] on assignment. *)
Definition to_uint16 (z : Z) : Z := z mod 2 ^ 16.

(** [#define MIN(a, b) ((a) < (b) ? (a) : (b))] *)
Definition MIN (a b : Z) : Z := if a <? b then a else b.

(** [#define MAX(a, b) ((a) > (b) ? (a) : (b))] *)
Definition MAX (a b : Z) : Z := if a >? b then a else b.

End CInt.
Import CInt.

(** ** Constants of the source *)

Definition LCD_H_RES : Z := 170.
Definition LCD_V_RES : Z := 320.
Definition LCD_X_OFFSET : Z := 0.
Definition LCD_Y_OFFSET : Z := 0.

(** [display_orientation_t]: a C enumeration, stored as an [int]; the
    [default] branches of the source are reachable for any other value. *)
Definition display_orientation_t := Z.
Definition DISPLAY_ORIENTATION_0 : display_orientation_t := 0.
Definition DISPLAY_ORIENTATION_90 : display_orientation_t := 1.
Definition DISPLAY_ORIENTATION_180 : display_orientation_t := 2.
Definition DISPLAY_ORIENTATION_270 : display_orientation_t := 3.

(** [esp_err_t] and the ESP-IDF error codes the source returns
    (values of [esp_err.h]). *)
Definition esp_err_t := Z.
Definition ESP_OK : esp_err_t := 0.
Definition ESP_FAIL : esp_err_t := -1.
Definition ESP_ERR_NO_MEM : esp_err_t := 0x101.
Definition ESP_ERR_INVALID_ARG : esp_err_t := 0x102.
Definition ESP_ERR_INVALID_STATE : esp_err_t := 0x103.

(** [ret != ESP_OK] *)
Definition failed (r : esp_err_t) : bool := negb (r =? ESP_OK).

(** ** The orientation switch of [set_display_orientation] *)

Record orientation_params := {
  madctl : Z;
  hor_res : Z;
  ver_res : Z;
  x_gap : Z;
  y_gap : Z
}.

(** The [switch (orientation)] of [set_display_orientation]; [None] is its
    [default] branch. *)
Definition orientation_switch (orientation : display_orientation_t)
  : option orientation_params :=
  if orientation =? DISPLAY_ORIENTATION_0 then
    Some {| madctl := 0x08; hor_res := LCD_H_RES; ver_res := LCD_V_RES;
            x_gap := 35; y_gap := 0 |}
  else if orientation =? DISPLAY_ORIENTATION_90 then
    Some {| madctl := 0x68; hor_res := LCD_V_RES; ver_res := LCD_H_RES;
            x_gap := 0; y_gap := 35 |}
  else if orientation =? DISPLAY_ORIENTATION_180 then
    Some {| madctl := 0xC8; hor_res := LCD_H_RES; ver_res := LCD_V_RES;
            x_gap := 35; y_gap := 0 |}
  else if orientation =? DISPLAY_ORIENTATION_270 then
    Some {| madctl := 0xA8; hor_res := LCD_V_RES; ver_res := LCD_H_RES;
            x_gap := 0; y_gap := 35 |}
  else None.

Definition valid_orientation (o : display_orientation_t) : Prop :=
  o = DISPLAY_ORIENTATION_0 \/ o = DISPLAY_ORIENTATION_90 \/
  o = DISPLAY_ORIENTATION_180 \/ o = DISPLAY_ORIENTATION_270.

(** ** The window translation of [set_draw_area] *)

(** [current_orientation == DISPLAY_ORIENTATION_0 ||
     current_orientation == DISPLAY_ORIENTATION_180] *)
Definition is_portrait (o : display_orientation_t) : bool :=
  (o =? DISPLAY_ORIENTATION_0) || (o =? DISPLAY_ORIENTATION_180).

Definition max_x (o : display_orientation_t) : Z :=
  if is_portrait o then sub_int LCD_H_RES 1 else sub_int LCD_V_RES 1.

Definition max_y (o : display_orientation_t) : Z :=
  if is_portrait o then sub_int LCD_V_RES 1 else sub_int LCD_H_RES 1.

(** A rectangle in logical coordinates, in the argument order of
    [set_draw_area]. *)
Record rect := {
  r_x_start : Z;
  r_x_end : Z;
  r_y_start : Z;
  r_y_end : Z
}.

(** The offsets and the clamping at the head of [set_draw_area]. *)
Definition clamp_area (o : display_orientation_t)
           (x_start x_end y_start y_end : Z) : rect :=
  let x_start := add_int x_start LCD_X_OFFSET in
  let x_end := add_int x_end LCD_X_OFFSET in
  let y_start := add_int y_start LCD_Y_OFFSET in
  let y_end := add_int y_end LCD_Y_OFFSET in
  {| r_x_start := MAX x_start 0;
     r_x_end := MIN x_end (max_x o);
     r_y_start := MAX y_start 0;
     r_y_end := MIN y_end (max_y o) |}.

(** [uint16_t col_start, col_end, row_start, row_end;] *)
Record window := {
  col_start : Z;
  col_end : Z;
  row_start : Z;
  row_end : Z
}.

(** The [switch (current_orientation)] of [set_draw_area] on the clamped
    edges; [None] is its [default] branch. *)
Definition physical_window (o : display_orientation_t) (c : rect)
  : option window :=
  let x_start := r_x_start c in
  let x_end := r_x_end c in
  let y_start := r_y_start c in
  let y_end := r_y_end c in
  if o =? DISPLAY_ORIENTATION_0 then
    Some {| col_start := to_uint16 x_start; col_end := to_uint16 x_end;
            row_start := to_uint16 y_start; row_end := to_uint16 y_end |}
  else if o =? DISPLAY_ORIENTATION_90 then
    Some {| col_start := to_uint16 y_start; col_end := to_uint16 y_end;
            row_start := to_uint16 x_start; row_end := to_uint16 x_end |}
  else if o =? DISPLAY_ORIENTATION_180 then
    Some {| col_start := to_uint16 (sub_int (sub_int LCD_H_RES 1) x_end);
            col_end := to_uint16 (sub_int (sub_int LCD_H_RES 1) x_start);
            row_start := to_uint16 (sub_int (sub_int LCD_V_RES 1) y_end);
            row_end := to_uint16 (sub_int (sub_int LCD_V_RES 1) y_start) |}
  else if o =? DISPLAY_ORIENTATION_270 then
    Some {| col_start := to_uint16 (sub_int (sub_int LCD_H_RES 1) y_end);
            col_end := to_uint16 (sub_int (sub_int LCD_H_RES 1) y_start);
            row_start := to_uint16 (sub_int (sub_int LCD_V_RES 1) x_end);
            row_end := to_uint16 (sub_int (sub_int LCD_V_RES 1) x_start) |}
  else None.

(** Lines 216-251 of [set_draw_area]: offset, clamp, map. *)
Definition translate (o : display_orientation_t)
           (x_start x_end y_start y_end : Z) : option window :=
  physical_window o (clamp_area o x_start x_end y_start y_end).

(** The mapping of the design document (its section 4.2, step 3), in
    unbounded integers: what the four branches of [physical_window] are
    compared with. *)
Definition spec_window (o : display_orientation_t) (c : rect)
  : option window :=
  if o =? DISPLAY_ORIENTATION_0 then
    Some {| col_start := r_x_start c; col_end := r_x_end c;
            row_start := r_y_start c; row_end := r_y_end c |}
  else if o =? DISPLAY_ORIENTATION_90 then
    Some {| col_start := r_y_start c; col_end := r_y_end c;
            row_start := r_x_start c; row_end := r_x_end c |}
  else if o =? DISPLAY_ORIENTATION_180 then
    Some {| col_start := LCD_H_RES - 1 - r_x_end c;
            col_end := LCD_H_RES - 1 - r_x_start c;
            row_start := LCD_V_RES - 1 - r_y_end c;
            row_end := LCD_V_RES - 1 - r_y_start c |}
  else if o =? DISPLAY_ORIENTATION_270 then
    Some {| col_start := LCD_H_RES - 1 - r_y_end c;
            col_end := LCD_H_RES - 1 - r_y_start c;
            row_start := LCD_V_RES - 1 - r_x_end c;
            row_end := LCD_V_RES - 1 - r_x_start c |}
  else None.

(** A window of integers as stored in four [uint16_t] variables. *)
Definition stored_window (w : window) : window :=
  {| col_start := to_uint16 (col_start w); col_end := to_uint16 (col_end w);
     row_start := to_uint16 (row_start w); row_end := to_uint16 (row_end w) |}.

(** Every clamped edge is a coordinate of the panel in orientation [o]. *)
Definition edges_on_panel (o : display_orientation_t) (c : rect) : Prop :=
  0 <= r_x_start c <= max_x o /\ 0 <= r_x_end c <= max_x o /\
  0 <= r_y_start c <= max_y o /\ 0 <= r_y_end c <= max_y o.


(** A physical window is well formed: ordered, columns within
    [0, LCD_H_RES - 1], rows within [0, LCD_V_RES - 1]. *)
Definition window_in_bounds (w : window) : Prop :=
  col_start w <= col_end w /\ row_start w <= row_end w /\
  0 <= col_start w /\ col_end w <= 169 /\
  0 <= row_start w /\ row_end w <= 319.

(** The high and low byte of a 16-bit value, as [set_draw_area] fills
    [params]: [(v >> 8) & 0xFF], [v & 0xFF]. *)
Definition hi_byte (v : Z) : Z := Z.land (Z.shiftr v 8) 0xFF.
Definition lo_byte (v : Z) : Z := Z.land v 0xFF.

Definition window_params (v_start v_end : Z) : list Z :=
  [hi_byte v_start; lo_byte v_start; hi_byte v_end; lo_byte v_end].

(** ** External calls and the driver's state *)

(** The ESP-IDF, LVGL and libc functions the driver calls, with the
    arguments that vary (handles are fixed after bring-up). *)
Inductive call :=
| esp_lcd_panel_io_tx_param (lcd_cmd : Z) (param : list Z)
| esp_lcd_panel_set_gap (gap_x gap_y : Z)
| esp_lcd_panel_draw_bitmap (x_start y_start x_end y_end : Z)
                            (color_data : list Z)
| esp_lcd_panel_io_tx_color (lcd_cmd : Z) (color : list Z)
| heap_caps_malloc (size : Z)
| free
| lv_disp_set_rotation (rotation : Z)
| lv_disp_flush_ready
| vTaskDelay (ms : Z).

(** The two fields of [lv_disp_drv_t] the driver writes. *)
Record lv_disp_drv_t := {
  drv_hor_res : Z;
  drv_ver_res : Z
}.

(** The file's mutable globals, and the calls made so far (oldest first).
    [lvgl_disp] is [NULL] until [init_lvgl] registers the driver. *)
Record state := {
  current_orientation : display_orientation_t;
  lvgl_disp : option lv_disp_drv_t;
  trace : list call
}.

Definition record_call (c : call) (st : state) : state :=
  {| current_orientation := current_orientation st;
     lvgl_disp := lvgl_disp st;
     trace := trace st ++ [c] |}.

Definition set_current_orientation (o : display_orientation_t) (st : state)
  : state :=
  {| current_orientation := o;
     lvgl_disp := lvgl_disp st;
     trace := trace st |}.

Definition set_lvgl_disp (d : option lv_disp_drv_t) (st : state) : state :=
  {| current_orientation := current_orientation st;
     lvgl_disp := d;
     trace := trace st |}.

(** [static display_orientation_t current_orientation =
     DISPLAY_ORIENTATION_90;] and [lvgl_disp = NULL]. *)
Definition initial_state : state :=
  {| current_orientation := DISPLAY_ORIENTATION_90;
     lvgl_disp := None;
     trace := [] |}.

(** State passing, with the result first. *)
Definition M (A : Type) : Type := state -> A * state.

Definition ret {A} (a : A) : M A := fun st => (a, st).

Definition bind {A B} (m : M A) (k : A -> M B) : M B :=
  fun st => let (a, st') := m st in k a st'.

Declare Scope driver_scope.
Delimit Scope driver_scope with driver.
Notation "x <- m ;; k" := (bind m (fun x => k))
  (at level 61, m at next level, right associativity) : driver_scope.
Notation "m ;;; k" := (bind m (fun _ => k))
  (at level 61, right associativity) : driver_scope.
Local Open Scope driver_scope.

(** [buffer[i] = color] for [i] from [0] to [n - 1]. *)
Definition fill_buffer (n : Z) (color : Z) : list Z :=
  repeat color (Z.to_nat n).

(** [lcd_cmd_t] and the vendor table [lcd_st7789v]; [param] holds the
    listed initialisers, the rest of the 16 bytes is zero. *)
Record lcd_cmd_t := {
  addr : Z;
  param_bytes : list Z;
  len : Z
}.

Definition param16 (c : lcd_cmd_t) : list Z :=
  firstn 16 (param_bytes c ++ repeat 0 16).

Definition lcd_st7789v : list lcd_cmd_t :=
  [ {| addr := 0x11; param_bytes := [0]; len := Z.lor 0 0x80 |};
    {| addr := 0x21; param_bytes := [0]; len := 0 |};
    {| addr := 0x35; param_bytes := [0x00]; len := 1 |};
    {| addr := 0x3A; param_bytes := [0x55]; len := 1 |};
    {| addr := 0xB2; param_bytes := [0x0C; 0x0C; 0x00; 0x33; 0x33]; len := 5 |};
    {| addr := 0xB7; param_bytes := [0x35]; len := 1 |};
    {| addr := 0xBB; param_bytes := [0x19]; len := 1 |};
    {| addr := 0xC0; param_bytes := [0x2C]; len := 1 |};
    {| addr := 0xC2; param_bytes := [0x01]; len := 1 |};
    {| addr := 0xC3; param_bytes := [0x12]; len := 1 |};
    {| addr := 0xC4; param_bytes := [0x20]; len := 1 |};
    {| addr := 0xC6; param_bytes := [0x0F]; len := 1 |};
    {| addr := 0xD0; param_bytes := [0xA4; 0xA1]; len := 2 |};
    {| addr := 0xE0;
       param_bytes := [0xD0; 0x08; 0x11; 0x08; 0x09; 0x15; 0x31;
                       0x33; 0x48; 0x17; 0x14; 0x15; 0x31; 0x34];
       len := 14 |};
    {| addr := 0xE1;
       param_bytes := [0xD0; 0x08; 0x11; 0x08; 0x09; 0x15; 0x31;
                       0x33; 0x48; 0x17; 0x14; 0x15; 0x31; 0x34];
       len := 14 |};
    {| addr := 0x2A; param_bytes := [0x00; 0x00; 0x01; 0x3F]; len := 4 |};
    {| addr := 0x2B; param_bytes := [0x00; 0x00; 0x00; 0xA9]; len := 4 |};
    {| addr := 0x29; param_bytes := [0]; len := Z.lor 0 0x80 |};
    {| addr := 0; param_bytes := [0]; len := 0xff |} ].

(** [lv_area_t], as [lvgl_flush_cb] reads it. *)
Record lv_area_t := {
  x1 : Z;
  y1 : Z;
  x2 : Z;
  y2 : Z
}.

(** The logical rectangle a physical window is the image of, per
    orientation.  The source has no such function: this is the inverse the
    round-trip law is stated with. *)
Definition logical_of_physical (o : display_orientation_t) (w : window)
  : option rect :=
  if o =? DISPLAY_ORIENTATION_0 then
    Some {| r_x_start := col_start w; r_x_end := col_end w;
            r_y_start := row_start w; r_y_end := row_end w |}
  else if o =? DISPLAY_ORIENTATION_90 then
    Some {| r_x_start := row_start w; r_x_end := row_end w;
            r_y_start := col_start w; r_y_end := col_end w |}
  else if o =? DISPLAY_ORIENTATION_180 then
    Some {| r_x_start := LCD_H_RES - 1 - col_end w;
            r_x_end := LCD_H_RES - 1 - col_start w;
            r_y_start := LCD_V_RES - 1 - row_end w;
            r_y_end := LCD_V_RES - 1 - row_start w |}
  else if o =? DISPLAY_ORIENTATION_270 then
    Some {| r_x_start := LCD_V_RES - 1 - row_end w;
            r_x_end := LCD_V_RES - 1 - row_start w;
            r_y_start := LCD_H_RES - 1 - col_end w;
            r_y_end := LCD_H_RES - 1 - col_start w |}
  else None.

Section Driver.

(** The result of each bus or panel call, given the calls made before it,
    and whether an allocation of a given size succeeds. *)
Variable bus : list call -> call -> esp_err_t.
Variable heap : list call -> Z -> bool.

(** A call whose [esp_err_t] result the driver reads. *)
Definition extern (c : call) : M esp_err_t :=
  fun st => (bus (trace st) c, record_call c st).

(** A call whose result is [void] or is dropped. *)
Definition notify (c : call) : M unit :=
  fun st => (tt, record_call c st).

(** [heap_caps_malloc(size, MALLOC_CAP_DMA)]; [false] is [NULL]. *)
Definition malloc (size : Z) : M bool :=
  fun st => (heap (trace st) size, record_call (heap_caps_malloc size) st).

(** Lines 258-290 of [set_draw_area]: CASET, RASET, RAMWR. *)
Definition send_window (w : window) : M esp_err_t :=
  r <- extern (esp_lcd_panel_io_tx_param 0x2A
                 (window_params (col_start w) (col_end w))) ;;
  if failed r then ret r else
  r <- extern (esp_lcd_panel_io_tx_param 0x2B
                 (window_params (row_start w) (row_end w))) ;;
  if failed r then ret r else
  r <- extern (esp_lcd_panel_io_tx_param 0x2C []) ;;
  if failed r then ret r else
  ret ESP_OK.

Definition set_draw_area (x_start x_end y_start y_end : Z) : M esp_err_t :=
  fun st =>
    match translate (current_orientation st) x_start x_end y_start y_end with
    | None => (ESP_ERR_INVALID_STATE, st)
    | Some w => send_window w st
    end.

Definition clear_screen (color : Z) : M esp_err_t :=
  fun st =>
    let hor_res :=
      if is_portrait (current_orientation st) then LCD_H_RES else LCD_V_RES in
    let ver_res :=
      if is_portrait (current_orientation st) then LCD_V_RES else LCD_H_RES in
    (buffer <- malloc ((mul_int hor_res ver_res * 2) mod 2 ^ 32) ;;
     if negb buffer then ret ESP_ERR_NO_MEM else
     let pixels := fill_buffer (mul_int hor_res ver_res) color in
     r <- set_draw_area 0 (sub_int hor_res 1) 0 (sub_int ver_res 1) ;;
     if failed r then notify free ;;; ret r else
     r <- extern (esp_lcd_panel_draw_bitmap 0 0 hor_res ver_res pixels) ;;
     notify (esp_lcd_panel_io_tx_color (-1) []) ;;;
     notify free ;;;
     ret r) st.

(** The [if (lvgl_disp)] block of [set_display_orientation]. *)
Definition update_lvgl_resolution (orientation : display_orientation_t)
           (p : orientation_params) : M unit :=
  fun st =>
    match lvgl_disp st with
    | None => (tt, st)
    | Some _ =>
        notify (lv_disp_set_rotation (mul_int orientation 90))
               (set_lvgl_disp
                  (Some {| drv_hor_res := hor_res p;
                           drv_ver_res := ver_res p |}) st)
    end.

Definition set_display_orientation (orientation : display_orientation_t)
  : M esp_err_t :=
  match orientation_switch orientation with
  | None => ret ESP_ERR_INVALID_ARG
  | Some p =>
      r <- extern (esp_lcd_panel_io_tx_param 0x36 [madctl p]) ;;
      if failed r then ret r else
      r <- extern (esp_lcd_panel_set_gap (x_gap p) (y_gap p)) ;;
      if failed r then ret r else
      (fun st => (tt, set_current_orientation orientation st)) ;;;
      update_lvgl_resolution orientation p ;;;
      r <- clear_screen 0x0000 ;;
      if failed r then ret r else
      ret ESP_OK
  end.

Definition lvgl_flush_cb (area : lv_area_t) (color_p : list Z) : M unit :=
  let x_start := x1 area in
  let x_end := x2 area in
  let y_start := y1 area in
  let y_end := y2 area in
  r <- set_draw_area x_start x_end y_start y_end ;;
  if failed r then ret tt else
  r <- extern (esp_lcd_panel_draw_bitmap x_start y_start
                 (add_int x_end 1) (add_int y_end 1) color_p) ;;
  if failed r then ret tt else
  notify (esp_lcd_panel_io_tx_color (-1) []) ;;;
  notify lv_disp_flush_ready.

(** The loop of [init_display] over the vendor table: it stops at the
    entry with [addr == 0] and [len == 0xff], and logs a failed command
    without stopping. *)
Fixpoint send_init_cmds (cmds : list lcd_cmd_t) : M unit :=
  match cmds with
  | [] => ret tt
  | c :: rest =>
      if negb (addr c =? 0) || negb (len c =? 0xff) then
        extern (esp_lcd_panel_io_tx_param (addr c)
                  (firstn (Z.to_nat (Z.land (len c) 0x7f)) (param16 c))) ;;;
        (if negb (Z.land (len c) 0x80 =? 0)
         then notify (vTaskDelay 120) else ret tt) ;;;
        send_init_cmds rest
      else ret tt
  end.

(** [init_display], from the vendor table on, on the runs in which its
    [ESP_ERROR_CHECK]ed calls succeed: the bring-up calls before the table
    (GPIO, i80 bus, panel creation and reset) and
    [esp_lcd_panel_disp_on_off] between the table and the orientation call
    abort the program on failure, touch none of the driver's globals and are
    not recorded in the trace.  The result of the orientation call is only
    logged. *)
Definition init_display : M unit :=
  send_init_cmds lcd_st7789v ;;;
  set_display_orientation DISPLAY_ORIENTATION_90 ;;;
  ret tt.

(** [init_lvgl] on the runs in which [lv_disp_drv_register] returns the
    display: the driver is registered with [hor_res = LCD_V_RES] and
    [ver_res = LCD_H_RES].  [init_lvgl_outcome] below covers the [NULL]
    return as well. *)
Definition init_lvgl : M unit :=
  fun st =>
    (tt, set_lvgl_disp (Some {| drv_hor_res := LCD_V_RES;
                                drv_ver_res := LCD_H_RES |}) st).

(** The head of [app_main]. *)
Definition startup : M unit :=
  init_display ;;; init_lvgl.

End Driver.

(** [init_lvgl] with the outcome of [lv_disp_drv_register(&disp_drv)],
    which the source stores in [lvgl_disp] unchecked: the display with the
    driver's 320 x 170, or [NULL]. *)
Definition init_lvgl_outcome (registered : bool) : M unit :=
  fun st =>
    (tt, set_lvgl_disp
           (if registered
            then Some {| drv_hor_res := LCD_V_RES; drv_ver_res := LCD_H_RES |}
            else None) st).

(** The head of [app_main] with that outcome. *)
Definition startup_outcome (bus : list call -> call -> esp_err_t)
           (heap : list call -> Z -> bool) (registered : bool) : M unit :=
  init_display bus heap ;;; init_lvgl_outcome registered.

(** ** The display test *)

(** The [colors] array of [test_fill_screen]: red, blue, green, black,
    white. *)
Definition test_colors : list Z := [0xF800; 0x001F; 0x07E0; 0x0000; 0xFFFF].

(** The value [test_fill_screen] leaves in [buffer[y * hor_res + x]]:
    black, overwritten by the first stripe that applies. *)
Definition edge_pixel (hor_res ver_res x y : Z) : Z :=
  if y <? 30 then 0xF800
  else if y >=? sub_int ver_res 30 then 0x001F
  else if x <? 30 then 0x07E0
  else if x >=? sub_int hor_res 30 then 0xFFFF
  else 0x0000.

(** The buffer after the two nested loops, which visit the indices
    [y * hor_res + x] in increasing order. *)
Definition edge_row (hor_res ver_res y : Z) : list Z :=
  map (fun x => edge_pixel hor_res ver_res (Z.of_nat x) y)
      (seq 0 (Z.to_nat hor_res)).

Definition edge_buffer (hor_res ver_res : Z) : list Z :=
  flat_map (fun y => edge_row hor_res ver_res (Z.of_nat y))
           (seq 0 (Z.to_nat ver_res)).

Section DisplayTest.

Variable bus : list call -> call -> esp_err_t.
Variable heap : list call -> Z -> bool.

(** The first loop of [test_fill_screen]: one clear per colour, its result
    only logged, and a delay of two seconds. *)
Fixpoint fill_colors (colors : list Z) : M unit :=
  match colors with
  | [] => ret tt
  | color :: rest =>
      clear_screen bus heap color ;;;
      notify (vTaskDelay 2000) ;;;
      fill_colors rest
  end.

Definition test_fill_screen : M unit :=
  fill_colors test_colors ;;;
  (fun st =>
     let hor_res :=
       if is_portrait (current_orientation st) then LCD_H_RES else LCD_V_RES in
     let ver_res :=
       if is_portrait (current_orientation st) then LCD_V_RES else LCD_H_RES in
     (buffer <- malloc heap ((mul_int hor_res ver_res * 2) mod 2 ^ 32) ;;
      if negb buffer then ret tt else
      let pixels := edge_buffer hor_res ver_res in
      r <- set_draw_area bus 0 (sub_int hor_res 1) 0 (sub_int ver_res 1) ;;
      if failed r then notify free else
      extern bus (esp_lcd_panel_draw_bitmap 0 0 hor_res ver_res pixels) ;;;
      notify (esp_lcd_panel_io_tx_color (-1) []) ;;;
      notify free ;;;
      notify (vTaskDelay 5000)) st).

End DisplayTest.

(** ** Sequences of driver operations *)

(** The entry points of the driver, as [app_main] and LVGL call them. *)
Inductive operation :=
| op_init_display
| op_init_lvgl
| op_set_display_orientation (orientation : display_orientation_t)
| op_set_draw_area (x_start x_end y_start y_end : Z)
| op_clear_screen (color : Z)
| op_test_fill_screen
| op_lvgl_flush_cb (area : lv_area_t) (color_p : list Z).

Definition run_operation (bus : list call -> call -> esp_err_t)
           (heap : list call -> Z -> bool) (op : operation) (st : state)
  : state :=
  match op with
  | op_init_display => snd (init_display bus heap st)
  | op_init_lvgl => snd (init_lvgl st)
  | op_set_display_orientation o => snd (set_display_orientation bus heap o st)
  | op_set_draw_area xs xe ys ye => snd (set_draw_area bus xs xe ys ye st)
  | op_clear_screen color => snd (clear_screen bus heap color st)
  | op_test_fill_screen => snd (test_fill_screen bus heap st)
  | op_lvgl_flush_cb area color_p => snd (lvgl_flush_cb bus area color_p st)
  end.

Definition run_operations (bus : list call -> call -> esp_err_t)
           (heap : list call -> Z -> bool) (ops : list operation) (st : state)
  : state :=
  fold_left (fun st op => run_operation bus heap op st) ops st.

(** The buffers allocated and not yet released over a run of calls
    [events] made after the calls [before]: a successful
    [heap_caps_malloc] counts one, a [free] releases one. *)
Fixpoint live_buffers (heap : list call -> Z -> bool)
         (before events : list call) : Z :=
  match events with
  | [] => 0
  | c :: rest =>
      match c with
      | heap_caps_malloc size => if heap before size then 1 else 0
      | free => -1
      | _ => 0
      end + live_buffers heap (before ++ [c]) rest
  end.

(** An operation only appends to the trace, and changes the number of live
    buffers by [delta] of its result. *)
Definition heap_effect {A} (heap : list call -> Z -> bool) (m : M A)
           (delta : A -> Z) : Prop :=
  forall st,
    exists added,
      trace (snd (m st)) = trace st ++ added /\
      live_buffers heap (trace st) added = delta (fst (m st)).

(** ** Vocabulary of the statements *)

(** The three commands [set_draw_area] issues for a window, in order. *)
Definition window_commands (w : window) : list call :=
  [ esp_lcd_panel_io_tx_param 0x2A (window_params (col_start w) (col_end w));
    esp_lcd_panel_io_tx_param 0x2B (window_params (row_start w) (row_end w));
    esp_lcd_panel_io_tx_param 0x2C [] ].

(** The fields of a window are [uint16_t] values. *)
Definition is_uint16_window (w : window) : Prop :=
  0 <= col_start w < 65536 /\ 0 <= col_end w < 65536 /\
  0 <= row_start w < 65536 /\ 0 <= row_end w < 65536.

(** The bus accepts the first [n] commands of [cmds], issued in order
    from the trace [t]. *)
Definition accepted (bus : list call -> call -> esp_err_t)
           (t : list call) (cmds : list call) (n : nat) : Prop :=
  forall k, (k < n)%nat ->
            bus (t ++ firstn k cmds) (nth k cmds free) = ESP_OK.

(** The calls an operation adds to the trace of [st]. *)
Definition added_by {A} (m : M A) (st : state) : list call :=
  skipn (length (trace st)) (trace (snd (m st))).

(** The orientation state: [current_orientation] and the resolution
    derived from it in the LVGL driver. *)
Definition same_orientation_state (st st' : state) : Prop :=
  current_orientation st' = current_orientation st /\
  lvgl_disp st' = lvgl_disp st.

(** From [st] on, every bus call succeeds. *)
Definition recovered (bus : list call -> call -> esp_err_t) (st : state)
  : Prop :=
  forall later c, bus (trace st ++ later) c = ESP_OK.

(** The two command writes of [set_display_orientation] for the table
    entry [p], and what the bus answers them from [st]. *)
Definition madctl_command (p : orientation_params) : call :=
  esp_lcd_panel_io_tx_param 0x36 [madctl p].

Definition gap_command (p : orientation_params) : call :=
  esp_lcd_panel_set_gap (x_gap p) (y_gap p).

Definition madctl_result (bus : list call -> call -> esp_err_t)
           (p : orientation_params) (st : state) : esp_err_t :=
  bus (trace st) (madctl_command p).

Definition gap_result (bus : list call -> call -> esp_err_t)
           (p : orientation_params) (st : state) : esp_err_t :=
  bus (trace st ++ [madctl_command p]) (gap_command p).

(** [set_display_orientation orientation] fails from [st] before its
    screen clear: the value is refused, or one of the two command writes
    is. *)
Definition fails_before_clear (bus : list call -> call -> esp_err_t)
           (orientation : display_orientation_t) (st : state) : Prop :=
  match orientation_switch orientation with
  | None => True
  | Some p => madctl_result bus p st <> ESP_OK \/ gap_result bus p st <> ESP_OK
  end.

(** The resolution [set_display_orientation] writes to a registered LVGL
    driver. *)
Definition with_resolution (p : orientation_params)
           (d : option lv_disp_drv_t) : option lv_disp_drv_t :=
  match d with
  | None => None
  | Some _ => Some {| drv_hor_res := hor_res p; drv_ver_res := ver_res p |}
  end.

(** The states the program can be in: the initial one, and any state an
    operation of the driver leaves. *)
Inductive reachable (bus : list call -> call -> esp_err_t)
          (heap : list call -> Z -> bool) : state -> Prop :=
| reach_initial : reachable bus heap initial_state
| reach_init_display st :
    reachable bus heap st ->
    reachable bus heap (snd (init_display bus heap st))
| reach_init_lvgl st :
    reachable bus heap st ->
    reachable bus heap (snd (init_lvgl st))
| reach_set_display_orientation st o :
    reachable bus heap st ->
    reachable bus heap (snd (set_display_orientation bus heap o st))
| reach_set_draw_area st x_start x_end y_start y_end :
    reachable bus heap st ->
    reachable bus heap (snd (set_draw_area bus x_start x_end y_start y_end st))
| reach_clear_screen st color :
    reachable bus heap st ->
    reachable bus heap (snd (clear_screen bus heap color st))
| reach_lvgl_flush_cb st area color_p :
    reachable bus heap st ->
    reachable bus heap (snd (lvgl_flush_cb bus area color_p st)).

(** ** Vocabulary of the further properties *)

(** An operation only appends to the trace, and every call it adds
    satisfies [P]. *)
Definition adds_only {A} (P : call -> Prop) (m : M A) : Prop :=
  forall st,
    exists added,
      trace (snd (m st)) = trace st ++ added /\ Forall P added.

(** The calls that belong to the renderer's side: the rotation notice and
    the completion signal. *)
Definition is_lvgl_call (c : call) : Prop :=
  (exists rotation, c = lv_disp_set_rotation rotation) \/
  c = lv_disp_flush_ready.

(** An operation leaves the orientation state as it was. *)
Definition keeps_orientation_state {A} (m : M A) : Prop :=
  forall st, same_orientation_state st (snd (m st)).

(** The resolution of a registered LVGL driver is the one the orientation
    switch gives for the current orientation. *)
Definition resolution_matches (st : state) : Prop :=
  match lvgl_disp st with
  | None => True
  | Some d =>
      exists p, orientation_switch (current_orientation st) = Some p /\
                d = {| drv_hor_res := hor_res p; drv_ver_res := ver_res p |}
  end.

(** A rectangle on the panel in orientation [o]. *)
Definition rect_on_panel (o : display_orientation_t) (c : rect) : Prop :=
  0 <= r_x_start c /\ r_x_start c <= r_x_end c /\ r_x_end c <= max_x o /\
  0 <= r_y_start c /\ r_y_start c <= r_y_end c /\ r_y_end c <= max_y o.

(** [a] lies inside [b]. *)
Definition rect_inside (a b : rect) : Prop :=
  r_x_start b <= r_x_start a /\ r_x_end a <= r_x_end b /\
  r_y_start b <= r_y_start a /\ r_y_end a <= r_y_end b.

Definition window_inside (a b : window) : Prop :=
  col_start b <= col_start a /\ col_end a <= col_end b /\
  row_start b <= row_start a /\ row_end a <= row_end b.

(** [translate] on the edges of a rectangle. *)
Definition translate_rect (o : display_orientation_t) (c : rect)
  : option window :=
  translate o (r_x_start c) (r_x_end c) (r_y_start c) (r_y_end c).

(** The number of pixels of a rectangle and of a window. *)
Definition rect_pixels (c : rect) : Z :=
  (r_x_end c - r_x_start c + 1) * (r_y_end c - r_y_start c + 1).

Definition window_pixels (w : window) : Z :=
  (col_end w - col_start w + 1) * (row_end w - row_start w + 1).

(** The end marker of a vendor table, and the calls [init_display] makes
    for one entry. *)
Definition is_end_marker (c : lcd_cmd_t) : bool :=
  (addr c =? 0) && (len c =? 0xff).

Definition init_calls_of (c : lcd_cmd_t) : list call :=
  esp_lcd_panel_io_tx_param (addr c)
    (firstn (Z.to_nat (Z.land (len c) 0x7f)) (param16 c))
  :: (if negb (Z.land (len c) 0x80 =? 0) then [vTaskDelay 120] else []).

(** The calls of one drawing of the whole panel from a buffer [pixels] in
    orientation [o]: allocation, the window 0..169 x 0..319, the transfer,
    its end and the release. *)
Definition full_panel_calls (o : display_orientation_t) (pixels : list Z)
  : list call :=
  [ heap_caps_malloc 108800;
    esp_lcd_panel_io_tx_param 0x2A [0; 0; 0; 169];
    esp_lcd_panel_io_tx_param 0x2B [0; 0; 1; 63];
    esp_lcd_panel_io_tx_param 0x2C [];
    esp_lcd_panel_draw_bitmap 0 0
      (if is_portrait o then 170 else 320)
      (if is_portrait o then 320 else 170) pixels;
    esp_lcd_panel_io_tx_color (-1) [];
    free ].

(** The entries of a vendor table in front of its first end marker. *)
Fixpoint entries_before_marker (cmds : list lcd_cmd_t) : list lcd_cmd_t :=
  match cmds with
  | [] => []
  | c :: rest =>
      if is_end_marker c then [] else c :: entries_before_marker rest
  end.

(** The values of a [uint8_t]. *)
Definition is_uint8 (z : Z) : Prop := 0 <= z < 256.

(** An entry as the C structure [lcd_cmd_t] can hold it and the loop of
    [init_display] can send it: bytes in [addr], [len] and [param], at most
    16 parameter bytes listed and at most 16 asked for by [len & 0x7f]. *)
Definition well_formed_entry (c : lcd_cmd_t) : Prop :=
  is_uint8 (addr c) /\ is_uint8 (len c) /\
  Forall is_uint8 (param_bytes c) /\
  (length (param_bytes c) <= 16)%nat /\
  Z.land (len c) 0x7f <= 16.

(** A table the loop of [init_display] walks as the model does: it holds an
    end marker, within the range of the loop's [uint8_t] index, and every
    entry in front of it is well formed. *)
Definition well_formed_table (cmds : list lcd_cmd_t) : Prop :=
  existsb is_end_marker cmds = true /\
  (length cmds <= 256)%nat /\
  Forall well_formed_entry (entries_before_marker cmds).

(** The calls of the flush path: the three window commands, the pixel
    transfer, the end of the colour transfer and the completion signal. *)
Definition is_flush_call (c : call) : Prop :=
  (exists params, c = esp_lcd_panel_io_tx_param 0x2A params \/
                  c = esp_lcd_panel_io_tx_param 0x2B params \/
                  c = esp_lcd_panel_io_tx_param 0x2C params) \/
  (exists xs ys xe ye data, c = esp_lcd_panel_draw_bitmap xs ys xe ye data) \/
  c = esp_lcd_panel_io_tx_color (-1) [] \/
  c = lv_disp_flush_ready.

(** ** Sample transports and states *)

(** A bus that accepts every call, and one that refuses exactly the
    commands with a given opcode. *)
Definition bus_ok : list call -> call -> esp_err_t :=
  fun _ _ => ESP_OK.

Definition bus_refusing (opcode : Z) : list call -> call -> esp_err_t :=
  fun _ c =>
    match c with
    | esp_lcd_panel_io_tx_param lcd_cmd _ =>
        if lcd_cmd =? opcode then ESP_FAIL else ESP_OK
    | _ => ESP_OK
    end.

(** A bus that refuses the first call made on it and accepts the rest. *)
Definition bus_failing_once : list call -> call -> esp_err_t :=
  fun t _ => match t with [] => ESP_FAIL | _ :: _ => ESP_OK end.

Definition heap_ok : list call -> Z -> bool := fun _ _ => true.

(** The state once [init_lvgl] has registered the driver, in the default
    orientation. *)
Definition registered_state : state :=
  {| current_orientation := DISPLAY_ORIENTATION_90;
     lvgl_disp := Some {| drv_hor_res := LCD_V_RES; drv_ver_res := LCD_H_RES |};
     trace := [] |}.

(** * Properties *)

(** ** Machine arithmetic *)

Lemma wrap_int_id z : is_int z -> wrap_int z = z.
Proof.
  unfold is_int, wrap_int; intros H.
  rewrite Z.mod_small; lia.
Qed.

Lemma wrap_int_is_int z : is_int (wrap_int z).
Proof.
  unfold is_int, wrap_int.
  pose proof (Z.mod_pos_bound (z + 2 ^ 31) (2 ^ 32) ltac:(lia)); lia.
Qed.

Lemma add_int_0_r z : is_int z -> add_int z 0 = z.
Proof. intros H; unfold add_int; rewrite Z.add_0_r; now apply wrap_int_id. Qed.

Lemma sub_int_exact a b : is_int (a - b) -> sub_int a b = a - b.
Proof. apply wrap_int_id. Qed.

Lemma to_uint16_id z : 0 <= z < 65536 -> to_uint16 z = z.
Proof. intros H; unfold to_uint16; apply Z.mod_small; lia. Qed.

Lemma to_uint16_range z : 0 <= to_uint16 z < 65536.
Proof. unfold to_uint16; apply Z.mod_pos_bound; lia. Qed.

Lemma MIN_spec a b : MIN a b = Z.min a b.
Proof. unfold MIN; destruct (Z.ltb_spec a b); lia. Qed.

Lemma MAX_spec a b : MAX a b = Z.max a b.
Proof. unfold MAX; rewrite Z.gtb_ltb; destruct (Z.ltb_spec b a); lia. Qed.

Lemma failed_true r : failed r = true <-> r <> ESP_OK.
Proof.
  unfold failed; destruct (Z.eqb_spec r ESP_OK); simpl; split; intros; congruence.
Qed.

Lemma failed_false r : failed r = false <-> r = ESP_OK.
Proof.
  unfold failed; destruct (Z.eqb_spec r ESP_OK); simpl; split; intros; congruence.
Qed.

(** ** Orientations *)

Lemma valid_orientation_switch o :
  valid_orientation o <-> orientation_switch o <> None.
Proof.
  unfold valid_orientation, orientation_switch.
  unfold DISPLAY_ORIENTATION_0, DISPLAY_ORIENTATION_90,
    DISPLAY_ORIENTATION_180, DISPLAY_ORIENTATION_270.
  destruct (Z.eqb_spec o 0); [split; [discriminate | auto] |].
  destruct (Z.eqb_spec o 1); [split; [discriminate | auto] |].
  destruct (Z.eqb_spec o 2); [split; [discriminate | auto] |].
  destruct (Z.eqb_spec o 3); [split; [discriminate | auto] |].
  split; [intros [H | [H | [H | H]]]; contradiction | congruence].
Qed.

Lemma max_x_value o : max_x o = if is_portrait o then 169 else 319.
Proof. unfold max_x; destruct (is_portrait o); reflexivity. Qed.

Lemma max_y_value o : max_y o = if is_portrait o then 319 else 169.
Proof. unfold max_y; destruct (is_portrait o); reflexivity. Qed.

Lemma max_x_bounds o : 169 <= max_x o <= 319.
Proof. rewrite max_x_value; destruct (is_portrait o); lia. Qed.

Lemma max_y_bounds o : 169 <= max_y o <= 319.
Proof. rewrite max_y_value; destruct (is_portrait o); lia. Qed.

(** ** The translation *)

(** On [int] arguments the head of [set_draw_area] intersects the rectangle
    with the half-planes [x >= 0], [x <= max_x], [y >= 0], [y <= max_y]. *)
Lemma clamp_area_spec o x_start x_end y_start y_end :
  is_int x_start -> is_int x_end -> is_int y_start -> is_int y_end ->
  clamp_area o x_start x_end y_start y_end =
  {| r_x_start := Z.max x_start 0;
     r_x_end := Z.min x_end (max_x o);
     r_y_start := Z.max y_start 0;
     r_y_end := Z.min y_end (max_y o) |}.
Proof.
  intros Hxs Hxe Hys Hye; unfold clamp_area, LCD_X_OFFSET, LCD_Y_OFFSET.
  rewrite !add_int_0_r by assumption.
  now rewrite !MAX_spec, !MIN_spec.
Qed.

Ltac exact_u16 :=
  repeat match goal with
         | |- context [sub_int ?a ?b] =>
             rewrite (sub_int_exact a b) by (unfold is_int; lia)
         | |- context [to_uint16 ?a] =>
             rewrite (to_uint16_id a) by lia
         end.

(** Decides the tests of a [switch] once the orientation is a constant. *)
Ltac decide_orientation :=
  repeat match goal with
         | |- context [?a =? ?b] =>
             let v := eval vm_compute in (a =? b) in
             lazymatch v with
             | true => change (a =? b) with true
             | false => change (a =? b) with false
             end
         end;
  cbv iota.

Ltac orientation_cases H :=
  destruct H as [H | [H | [H | H]]]; rewrite H in *.

Lemma to_uint16_wrap_int z : to_uint16 (wrap_int z) = to_uint16 z.
Proof.
  unfold to_uint16, wrap_int.
  rewrite (Z.mod_eq (z + 2 ^ 31) (2 ^ 32)) by lia.
  set (q := (z + 2 ^ 31) / 2 ^ 32).
  replace (z + 2 ^ 31 - 2 ^ 32 * q - 2 ^ 31)
    with (z + (- q * 2 ^ 16) * 2 ^ 16) by lia.
  apply Z_mod_plus_full.
Qed.

Lemma to_uint16_sub_int a b c :
  to_uint16 (sub_int (sub_int a b) c) = to_uint16 (a - b - c).
Proof.
  unfold sub_int; rewrite to_uint16_wrap_int.
  pose proof (to_uint16_wrap_int (a - b)) as W.
  unfold to_uint16 in *.
  rewrite (Zminus_mod (wrap_int (a - b)) c), W.
  now rewrite <- Zminus_mod.
Qed.

(** For every clamped rectangle the code's window is the document's
    window stored in 16 bits. *)
Lemma physical_window_stored o c :
  physical_window o c = option_map stored_window (spec_window o c).
Proof.
  unfold physical_window, spec_window.
  repeat match goal with
         | |- context [if ?b then _ else _] => destruct b
         end; try reflexivity;
    unfold option_map, stored_window;
    cbn [col_start col_end row_start row_end];
    now rewrite !to_uint16_sub_int.
Qed.

(** Without truncation: when the clamped edges are on the panel, the
    16-bit window fields hold the branch expressions themselves. *)
Lemma physical_window_exact o c :
  edges_on_panel o c -> physical_window o c = spec_window o c.
Proof.
  unfold edges_on_panel, physical_window, spec_window.
  rewrite max_x_value, max_y_value; unfold is_portrait.
  unfold DISPLAY_ORIENTATION_0, DISPLAY_ORIENTATION_90,
    DISPLAY_ORIENTATION_180, DISPLAY_ORIENTATION_270, LCD_H_RES, LCD_V_RES.
  intros (Hxs & Hxe & Hys & Hye).
  destruct (Z.eqb_spec o 0) as [-> | _]; simpl in *; [now exact_u16 |].
  destruct (Z.eqb_spec o 1) as [-> | _]; simpl in *; [now exact_u16 |].
  destruct (Z.eqb_spec o 2) as [-> | _]; simpl in *; [now exact_u16 |].
  destruct (Z.eqb_spec o 3) as [-> | _]; simpl in *; [now exact_u16 |].
  reflexivity.
Qed.

Lemma clamped_rect_on_panel o x_start x_end y_start y_end c :
  is_int x_start -> is_int x_end -> is_int y_start -> is_int y_end ->
  clamp_area o x_start x_end y_start y_end = c ->
  r_x_start c <= r_x_end c -> r_y_start c <= r_y_end c ->
  edges_on_panel o c.
Proof.
  intros Hxs Hxe Hys Hye <-.
  rewrite clamp_area_spec by assumption; unfold edges_on_panel; simpl.
  pose proof (max_x_bounds o); pose proof (max_y_bounds o); lia.
Qed.

(** C1. [set_draw_area] maps the offset and clamped edges [c] of every
    rectangle to the column/row window by four branches: 0 degrees is the
    identity, 90 degrees swaps the axes, 180 degrees inverts both axes with
    [dimension - 1 - edge], 270 degrees swaps and inverts, with physical
    width 170 and height 320.  The four fields are [uint16_t]: they hold
    the branch expressions reduced modulo 2^16, and the expressions
    themselves whenever [c] is a rectangle (start <= end on both axes). *)
Theorem translate_four_branches :
  forall o x_start x_end y_start y_end c,
    is_int x_start -> is_int x_end -> is_int y_start -> is_int y_end ->
    clamp_area o x_start x_end y_start y_end = c ->
    LCD_H_RES = 170 /\ LCD_V_RES = 320 /\
    translate o x_start x_end y_start y_end
    = option_map stored_window (spec_window o c) /\
    (r_x_start c <= r_x_end c -> r_y_start c <= r_y_end c ->
     (o = DISPLAY_ORIENTATION_0 ->
      translate o x_start x_end y_start y_end =
      Some {| col_start := r_x_start c; col_end := r_x_end c;
              row_start := r_y_start c; row_end := r_y_end c |}) /\
     (o = DISPLAY_ORIENTATION_90 ->
      translate o x_start x_end y_start y_end =
      Some {| col_start := r_y_start c; col_end := r_y_end c;
              row_start := r_x_start c; row_end := r_x_end c |}) /\
     (o = DISPLAY_ORIENTATION_180 ->
      translate o x_start x_end y_start y_end =
      Some {| col_start := LCD_H_RES - 1 - r_x_end c;
              col_end := LCD_H_RES - 1 - r_x_start c;
              row_start := LCD_V_RES - 1 - r_y_end c;
              row_end := LCD_V_RES - 1 - r_y_start c |}) /\
     (o = DISPLAY_ORIENTATION_270 ->
      translate o x_start x_end y_start y_end =
      Some {| col_start := LCD_H_RES - 1 - r_y_end c;
              col_end := LCD_H_RES - 1 - r_y_start c;
              row_start := LCD_V_RES - 1 - r_x_end c;
              row_end := LCD_V_RES - 1 - r_x_start c |})).
Proof.
  intros o xs xe ys ye c Hxs Hxe Hys Hye Hc.
  do 2 (split; [reflexivity |]).
  unfold translate; rewrite Hc.
  split; [apply physical_window_stored |].
  intros Hx Hy.
  pose proof (clamped_rect_on_panel o xs xe ys ye c Hxs Hxe Hys Hye Hc Hx Hy)
    as Hpanel.
  rewrite (physical_window_exact o c Hpanel).
  repeat split; intros ->; reflexivity.
Qed.

Lemma small_is_int z : -100000 <= z <= 100000 -> is_int z.
Proof. unfold is_int; lia. Qed.

Lemma translate_four_branches_witness :
  (is_int 10 /\ is_int 20 /\ is_int 300 /\ is_int 500) /\
  translate DISPLAY_ORIENTATION_180 10 20 300 500 =
  Some {| col_start := 149; col_end := 159; row_start := 0; row_end := 19 |}.
Proof.
  assert (Hi : is_int 10 /\ is_int 20 /\ is_int 300 /\ is_int 500)
    by (repeat split; apply small_is_int; lia).
  split; [exact Hi |].
  destruct Hi as (H1 & H2 & H3 & H4).
  destruct (translate_four_branches DISPLAY_ORIENTATION_180 10 20 300 500
              {| r_x_start := 10; r_x_end := 20;
                 r_y_start := 300; r_y_end := 319 |} H1 H2 H3 H4 eq_refl)
    as (_ & _ & _ & Hexact).
  destruct Hexact as (_ & _ & H180 & _).
  - cbn [r_x_start r_x_end]; lia.
  - cbn [r_y_start r_y_end]; lia.
  - apply H180; reflexivity.
Defined.

(** C2. For every rectangle inside the panel bounds of a valid orientation,
    the window [set_draw_area] computes is mapped back to the rectangle by
    the inverse of that orientation's mapping. *)
Theorem translate_round_trip :
  forall o x_start x_end y_start y_end,
    valid_orientation o ->
    0 <= x_start -> x_start <= x_end -> x_end <= max_x o ->
    0 <= y_start -> y_start <= y_end -> y_end <= max_y o ->
    LCD_X_OFFSET = 0 /\ LCD_Y_OFFSET = 0 /\
    exists w,
      translate o x_start x_end y_start y_end = Some w /\
      logical_of_physical o w =
      Some {| r_x_start := x_start; r_x_end := x_end;
              r_y_start := y_start; r_y_end := y_end |}.
Proof.
  intros o xs xe ys ye Ho Hxs Hx Hxe Hys Hy Hye.
  pose proof (max_x_bounds o) as Bx; pose proof (max_y_bounds o) as By.
  assert (Hc : clamp_area o xs xe ys ye =
               {| r_x_start := xs; r_x_end := xe;
                  r_y_start := ys; r_y_end := ye |}).
  { rewrite clamp_area_spec by (unfold is_int; lia).
    f_equal; lia. }
  do 2 (split; [reflexivity |]).
  unfold translate; rewrite Hc, physical_window_exact
    by (unfold edges_on_panel; simpl; lia).
  unfold spec_window.
  orientation_cases Ho; decide_orientation;
    (eexists; split; [reflexivity |]);
    unfold logical_of_physical; decide_orientation;
    cbn [r_x_start r_x_end r_y_start r_y_end
         col_start col_end row_start row_end];
    do 2 f_equal; lia.
Qed.

Lemma translate_round_trip_witness :
  (valid_orientation DISPLAY_ORIENTATION_270 /\
   0 <= 5 /\ 5 <= 100 /\ 100 <= max_x DISPLAY_ORIENTATION_270 /\
   0 <= 7 /\ 7 <= 60 /\ 60 <= max_y DISPLAY_ORIENTATION_270) /\
  exists w,
    translate DISPLAY_ORIENTATION_270 5 100 7 60 = Some w /\
    logical_of_physical DISPLAY_ORIENTATION_270 w =
    Some {| r_x_start := 5; r_x_end := 100; r_y_start := 7; r_y_end := 60 |}.
Proof.
  assert (Hv : valid_orientation DISPLAY_ORIENTATION_270)
    by (right; right; right; reflexivity).
  assert (H1 : 0 <= 5) by lia.
  assert (H2 : 5 <= 100) by lia.
  assert (H3 : 100 <= max_x DISPLAY_ORIENTATION_270)
    by (apply Z.leb_le; reflexivity).
  assert (H4 : 0 <= 7) by lia.
  assert (H5 : 7 <= 60) by lia.
  assert (H6 : 60 <= max_y DISPLAY_ORIENTATION_270)
    by (apply Z.leb_le; reflexivity).
  split; [repeat split; assumption |].
  exact (proj2 (proj2 (translate_round_trip DISPLAY_ORIENTATION_270 5 100 7 60
                         Hv H1 H2 H3 H4 H5 H6))).
Defined.

(** ** Bytes of a window command *)

Lemma hi_byte_div v : 0 <= v < 65536 -> hi_byte v = v / 256.
Proof.
  intros H; unfold hi_byte.
  change 0xFF with (Z.ones 8).
  rewrite Z.land_ones, Z.shiftr_div_pow2 by lia.
  change (2 ^ 8) with 256.
  apply Z.mod_small; split.
  - apply Z.div_pos; lia.
  - apply Z.div_lt_upper_bound; lia.
Qed.

Lemma lo_byte_mod v : lo_byte v = v mod 256.
Proof.
  unfold lo_byte; change 0xFF with (Z.ones 8).
  now rewrite Z.land_ones by lia.
Qed.

(** The four parameter bytes are the two 16-bit values, high byte first. *)
Lemma window_params_big_endian v_start v_end :
  0 <= v_start < 65536 -> 0 <= v_end < 65536 ->
  window_params v_start v_end =
  [v_start / 256; v_start mod 256; v_end / 256; v_end mod 256].
Proof.
  intros Hs He; unfold window_params.
  now rewrite !hi_byte_div, !lo_byte_mod by assumption.
Qed.

Lemma big_endian_bytes v :
  0 <= v < 65536 ->
  0 <= v / 256 < 256 /\ 0 <= v mod 256 < 256 /\
  256 * (v / 256) + v mod 256 = v.
Proof.
  intros H; repeat split.
  - apply Z.div_pos; lia.
  - apply Z.div_lt_upper_bound; lia.
  - apply Z.mod_pos_bound; lia.
  - apply Z.mod_pos_bound; lia.
  - symmetry; apply Z.div_mod; lia.
Qed.

Lemma physical_window_uint16 o c w :
  physical_window o c = Some w -> is_uint16_window w.
Proof.
  unfold physical_window, is_uint16_window.
  repeat match goal with
         | |- context [if ?b then _ else _] => destruct b
         end;
    intros H; inversion H; subst; cbn [col_start col_end row_start row_end];
    repeat split; apply to_uint16_range.
Qed.

Lemma translate_uint16 o x_start x_end y_start y_end w :
  translate o x_start x_end y_start y_end = Some w -> is_uint16_window w.
Proof. apply physical_window_uint16. Qed.

Lemma translate_valid o x_start x_end y_start y_end :
  valid_orientation o <-> translate o x_start x_end y_start y_end <> None.
Proof.
  unfold translate, physical_window; split.
  - intros H; orientation_cases H; decide_orientation; discriminate.
  - unfold valid_orientation.
    unfold DISPLAY_ORIENTATION_0, DISPLAY_ORIENTATION_90,
      DISPLAY_ORIENTATION_180, DISPLAY_ORIENTATION_270.
    destruct (Z.eqb_spec o 0); [auto |].
    destruct (Z.eqb_spec o 1); [auto |].
    destruct (Z.eqb_spec o 2); [auto |].
    destruct (Z.eqb_spec o 3); [auto |].
    congruence.
Qed.

Lemma in_firstn {A} (x : A) n l : In x (firstn n l) -> In x l.
Proof.
  intros H; rewrite <- (firstn_skipn n l); apply in_or_app; now left.
Qed.

Lemma skipn_length_app {A} (l l' : list A) : skipn (length l) (l ++ l') = l'.
Proof.
  rewrite skipn_app, Nat.sub_diag, skipn_all; reflexivity.
Qed.

(** ** The command sequence *)

Section Sequencing.

Variable bus : list call -> call -> esp_err_t.
Variable heap : list call -> Z -> bool.

(** [send_window] issues the commands of the window in order and stops
    at the first one the bus refuses. *)
Lemma send_window_spec w st :
  let cmds := window_commands w in
  let r := fst (send_window bus w st) in
  let st' := snd (send_window bus w st) in
  same_orientation_state st st' /\
  ((r = ESP_OK /\ trace st' = trace st ++ cmds /\
    accepted bus (trace st) cmds 3) \/
   (exists n, (n < 3)%nat /\ r <> ESP_OK /\
              trace st' = trace st ++ firstn (S n) cmds /\
              accepted bus (trace st) cmds n /\
              r = bus (trace st ++ firstn n cmds) (nth n cmds free))).
Proof.
  unfold send_window, bind, extern, ret, same_orientation_state;
    cbn [window_commands].
  set (c1 := esp_lcd_panel_io_tx_param 42 _).
  set (c2 := esp_lcd_panel_io_tx_param 43 _).
  set (c3 := esp_lcd_panel_io_tx_param 44 []).
  cbn [record_call trace current_orientation lvgl_disp].
  destruct (failed (bus (trace st) c1)) eqn:F1; cbn [fst snd trace
    record_call current_orientation lvgl_disp].
  { split; [auto |]. right; exists 0%nat. apply failed_true in F1.
    cbn [firstn nth]; rewrite app_nil_r.
    repeat split; auto. intros k Hk; lia. }
  apply failed_false in F1.
  destruct (failed (bus (trace st ++ [c1]) c2)) eqn:F2; cbn [fst snd trace
    record_call current_orientation lvgl_disp].
  { split; [auto |]. right; exists 1%nat. apply failed_true in F2.
    cbn [firstn nth]; rewrite <- app_assoc.
    repeat split; auto.
    intros k Hk; assert (k = 0)%nat as -> by lia.
    cbn [firstn nth]; now rewrite app_nil_r. }
  apply failed_false in F2.
  destruct (failed (bus ((trace st ++ [c1]) ++ [c2]) c3)) eqn:F3;
    cbn [fst snd trace record_call current_orientation lvgl_disp].
  { split; [auto |]. right; exists 2%nat. apply failed_true in F3.
    cbn [firstn nth]; rewrite <- !app_assoc in *; cbn [app] in *.
    repeat split; auto.
    intros k Hk.
    assert (k = 0 \/ k = 1)%nat as [-> | ->] by lia;
      cbn [firstn nth]; now rewrite ?app_nil_r. }
  apply failed_false in F3.
  split; [auto |]. left.
  rewrite <- !app_assoc in *; cbn [app] in *.
  repeat split; auto.
  intros k Hk.
  assert (k = 0 \/ k = 1 \/ k = 2)%nat as [-> | [-> | ->]] by lia;
    cbn [firstn nth]; now rewrite ?app_nil_r.
Qed.

End Sequencing.

Section DrawArea.

Variable bus : list call -> call -> esp_err_t.

(** [set_draw_area] in full: an invalid orientation state is refused
    before any command; otherwise the window's commands are issued in
    order up to the first refusal. *)
Lemma set_draw_area_spec x_start x_end y_start y_end st r st' :
  set_draw_area bus x_start x_end y_start y_end st = (r, st') ->
  same_orientation_state st st' /\
  ((translate (current_orientation st) x_start x_end y_start y_end = None /\
    r = ESP_ERR_INVALID_STATE /\ st' = st) \/
   (exists w,
       translate (current_orientation st) x_start x_end y_start y_end
       = Some w /\
       ((r = ESP_OK /\ trace st' = trace st ++ window_commands w /\
         accepted bus (trace st) (window_commands w) 3) \/
        (exists n, (n < 3)%nat /\ r <> ESP_OK /\
                   trace st' = trace st ++ firstn (S n) (window_commands w) /\
                   accepted bus (trace st) (window_commands w) n /\
                   r = bus (trace st ++ firstn n (window_commands w))
                           (nth n (window_commands w) free))))).
Proof.
  unfold set_draw_area.
  destruct (translate _ _ _ _ _) as [w |] eqn:T.
  - intros E. pose proof (send_window_spec bus w st) as S.
    rewrite E in S; cbn [fst snd] in S.
    destruct S as [Hsame S]; split; [exact Hsame |].
    right; exists w; split; [reflexivity | exact S].
  - intros E; inversion E; subst.
    split; [split; reflexivity |]. left; auto.
Qed.

Lemma set_draw_area_trace x_start x_end y_start y_end st :
  exists cmds,
    trace (snd (set_draw_area bus x_start x_end y_start y_end st))
    = trace st ++ cmds /\
    forall c, In c cmds -> exists op params,
        c = esp_lcd_panel_io_tx_param op params.
Proof.
  destruct (set_draw_area bus x_start x_end y_start y_end st) as [r st'] eqn:E.
  cbn [snd].
  destruct (set_draw_area_spec _ _ _ _ _ _ _ E)
    as [_ [(_ & _ & ->) | (w & _ & [(_ & -> & _) | (n & _ & _ & -> & _)])]].
  - exists []; split; [now rewrite app_nil_r | intros c []].
  - eexists; split; [reflexivity |].
    intros c [<- | [<- | [<- | []]]]; eauto.
  - eexists; split; [reflexivity |].
    intros c Hc; apply in_firstn in Hc.
    destruct Hc as [<- | [<- | [<- | []]]]; eauto.
Qed.

(** The first command the bus refuses is unique: with the first [n]
    commands accepted and command [n] refused, no other index has that
    property. *)
Lemma first_refused_unique (t cmds : list call) (n m : nat) :
  accepted bus t cmds n -> bus (t ++ firstn n cmds) (nth n cmds free) <> ESP_OK ->
  accepted bus t cmds m -> bus (t ++ firstn m cmds) (nth m cmds free) <> ESP_OK ->
  n = m.
Proof.
  intros An Rn Am Rm.
  destruct (Nat.lt_trichotomy n m) as [H | [H | H]]; [| exact H |].
  - now elim Rn; apply Am.
  - now elim Rm; apply An.
Qed.

(** C7. Every successful [set_draw_area] issues exactly three commands
    in the order column window (0x2A), row window (0x2B), memory write
    (0x2C); each window command carries 4 parameter bytes, the big-endian
    16-bit start then the big-endian 16-bit end; the memory write carries
    none; and the bus accepted all three.  Any command failure aborts the
    sequence and returns the error: when the bus accepts the first [n]
    commands and refuses the next one, exactly these [n + 1] commands are
    issued and the refusal is the value returned; the call returns [ESP_OK]
    exactly when the orientation state is valid and all three commands are
    accepted. *)
Theorem set_draw_area_command_sequence :
  forall x_start x_end y_start y_end st r st',
    set_draw_area bus x_start x_end y_start y_end st = (r, st') ->
    (r = ESP_OK ->
     exists w,
       translate (current_orientation st) x_start x_end y_start y_end
       = Some w /\
       is_uint16_window w /\
       (forall v,
           In v [col_start w; col_end w; row_start w; row_end w] ->
           0 <= v / 256 < 256 /\ 0 <= v mod 256 < 256 /\
           256 * (v / 256) + v mod 256 = v) /\
       trace st' = trace st ++
         [ esp_lcd_panel_io_tx_param 0x2A
             [col_start w / 256; col_start w mod 256;
              col_end w / 256; col_end w mod 256];
           esp_lcd_panel_io_tx_param 0x2B
             [row_start w / 256; row_start w mod 256;
              row_end w / 256; row_end w mod 256];
           esp_lcd_panel_io_tx_param 0x2C [] ] /\
       accepted bus (trace st) (window_commands w) 3) /\
    (r <> ESP_OK ->
     (r = ESP_ERR_INVALID_STATE /\ st' = st) \/
     exists w n,
       translate (current_orientation st) x_start x_end y_start y_end
       = Some w /\
       (n < 3)%nat /\
       trace st' = trace st ++ firstn (S n) (window_commands w) /\
       accepted bus (trace st) (window_commands w) n /\
       r = bus (trace st ++ firstn n (window_commands w))
               (nth n (window_commands w) free)) /\
    (translate (current_orientation st) x_start x_end y_start y_end = None ->
     r = ESP_ERR_INVALID_STATE /\ st' = st) /\
    (forall w,
        translate (current_orientation st) x_start x_end y_start y_end
        = Some w ->
        (accepted bus (trace st) (window_commands w) 3 ->
         r = ESP_OK /\ trace st' = trace st ++ window_commands w) /\
        (forall n,
            (n < 3)%nat ->
            accepted bus (trace st) (window_commands w) n ->
            bus (trace st ++ firstn n (window_commands w))
                (nth n (window_commands w) free) <> ESP_OK ->
            r = bus (trace st ++ firstn n (window_commands w))
                    (nth n (window_commands w) free) /\
            r <> ESP_OK /\
            trace st' = trace st ++ firstn (S n) (window_commands w))).
Proof.
  intros xs xe ys ye st r st' E.
  destruct (set_draw_area_spec _ _ _ _ _ _ _ E) as [_ S].
  split; [| split; [| split]].
  - intros Hr.
    destruct S as [(_ & Hr' & _) | (w & T & [(_ & Ht & Ha) | (n & _ & Hn & _)])].
    + rewrite Hr in Hr'; discriminate.
    + exists w; pose proof (translate_uint16 _ _ _ _ _ _ T) as U.
      split; [exact T |]; split; [exact U |].
      destruct U as (U1 & U2 & U3 & U4).
      split.
      { intros v [<- | [<- | [<- | [<- | []]]]];
          now apply big_endian_bytes. }
      split; [| exact Ha].
      rewrite Ht; unfold window_commands.
      now rewrite !window_params_big_endian by assumption.
    + contradiction.
  - intros Hr.
    destruct S as [(_ & Hr' & Hst) | (w & T & [(Hr' & _) | (n & Hlt & _ & S)])].
    + left; auto.
    + contradiction.
    + right; exists w, n; tauto.
  - intros Tn.
    destruct S as [(_ & Hr & Hst) | (w & T & _)]; [auto | congruence].
  - intros w Tw.
    destruct S as [(Tn & _) | (w' & T & S)]; [congruence |].
    assert (w' = w) by congruence; subst w'.
    split.
    + intros A3.
      destruct S as [(Hr & Ht & _) | (n & Hlt & Hr & _ & _ & Hb)]; [auto |].
      rewrite (A3 n Hlt) in Hb; contradiction.
    + intros n Hlt An Rn.
      destruct S as [(_ & _ & A3) | (m & Hm & Hr & Ht & Am & Hb)].
      * now elim Rn; apply A3.
      * assert (n = m)
          by (apply (first_refused_unique (trace st) (window_commands w));
              try assumption; now rewrite <- Hb).
        subst m; auto.
Qed.

Lemma set_draw_area_recovered x_start x_end y_start y_end st :
  valid_orientation (current_orientation st) ->
  recovered bus st ->
  exists w st',
    translate (current_orientation st) x_start x_end y_start y_end
    = Some w /\
    set_draw_area bus x_start x_end y_start y_end st = (ESP_OK, st') /\
    trace st' = trace st ++ window_commands w /\
    same_orientation_state st st'.
Proof.
  intros Hv Hrec.
  destruct (set_draw_area bus x_start x_end y_start y_end st)
    as [r st'] eqn:E.
  destruct (set_draw_area_spec _ _ _ _ _ _ _ E)
    as [Hsame [(T & _) | (w & T & [(-> & Ht & _) | (n & _ & Hr & _ & _ & Hb)])]].
  - now apply (translate_valid _ x_start x_end y_start y_end) in Hv.
  - exists w, st'; auto.
  - rewrite Hrec in Hb; contradiction.
Qed.

(** C9. A [set_draw_area] call that fails leaves [current_orientation]
    and the derived resolution as they were, so the rectangle translates to
    the same window afterwards; in a valid orientation state, once the bus
    has recovered, the retry of the same rectangle issues that window's
    three commands and returns [ESP_OK]. *)
Theorem set_draw_area_failure_retry :
  forall x_start x_end y_start y_end st r st',
    set_draw_area bus x_start x_end y_start y_end st = (r, st') ->
    r <> ESP_OK ->
    same_orientation_state st st' /\
    max_x (current_orientation st') = max_x (current_orientation st) /\
    max_y (current_orientation st') = max_y (current_orientation st) /\
    translate (current_orientation st') x_start x_end y_start y_end
    = translate (current_orientation st) x_start x_end y_start y_end /\
    (valid_orientation (current_orientation st) ->
     recovered bus st' ->
     exists w st'',
       translate (current_orientation st) x_start x_end y_start y_end
       = Some w /\
       set_draw_area bus x_start x_end y_start y_end st' = (ESP_OK, st'') /\
       trace st'' = trace st' ++ window_commands w /\
       same_orientation_state st st'').
Proof.
  intros xs xe ys ye st r st' E Hr.
  destruct (set_draw_area_spec _ _ _ _ _ _ _ E) as [[Ho Hd] _].
  split; [split; assumption |].
  rewrite Ho; do 3 (split; [reflexivity |]).
  intros Hv Hrec.
  rewrite <- Ho in Hv.
  destruct (set_draw_area_recovered xs xe ys ye st' Hv Hrec)
    as (w & st'' & T & E' & Ht & Ho' & Hd').
  exists w, st''; rewrite Ho in T.
  repeat split; try assumption; congruence.
Qed.

(** C8. The flush callback signals [lv_disp_flush_ready] exactly when
    both [set_draw_area] and the pixel transfer succeeded: after a failed
    [set_draw_area] it adds no call at all, after a failed transfer it adds
    the transfer only, and on success it adds the transfer of [color_p],
    the end of the colour transfer and then the completion signal, in that
    order. *)
Theorem lvgl_flush_cb_completion :
  forall area color_p st r st1,
    set_draw_area bus (x1 area) (x2 area) (y1 area) (y2 area) st
    = (r, st1) ->
    let draw :=
      esp_lcd_panel_draw_bitmap (x1 area) (y1 area)
        (add_int (x2 area) 1) (add_int (y2 area) 1) color_p in
    let window_calls :=
      added_by (set_draw_area bus (x1 area) (x2 area) (y1 area) (y2 area))
               st in
    let added := added_by (lvgl_flush_cb bus area color_p) st in
    ~ In lv_disp_flush_ready window_calls /\
    (r <> ESP_OK -> added = window_calls) /\
    (r = ESP_OK -> bus (trace st1) draw <> ESP_OK ->
     added = window_calls ++ [draw]) /\
    (r = ESP_OK -> bus (trace st1) draw = ESP_OK ->
     added = window_calls ++
             [draw; esp_lcd_panel_io_tx_color (-1) []; lv_disp_flush_ready]) /\
    (In lv_disp_flush_ready added <->
     r = ESP_OK /\ bus (trace st1) draw = ESP_OK).
Proof.
  intros area color_p st r st1 E draw window_calls added.
  destruct (set_draw_area_trace (x1 area) (x2 area) (y1 area) (y2 area) st)
    as (cmds & Ht & Hcmds).
  rewrite E in Ht; cbn [snd] in Ht.
  assert (Hw : window_calls = cmds).
  { unfold window_calls, added_by; rewrite E; cbn [snd].
    rewrite Ht; apply skipn_length_app. }
  assert (Hnot : ~ In lv_disp_flush_ready cmds).
  { intros Hin; destruct (Hcmds _ Hin) as (op & ps & Habs); discriminate. }
  assert (Hadded :
            added = if failed r then cmds
                    else if failed (bus (trace st1) draw) then cmds ++ [draw]
                         else cmds ++ [draw;
                                       esp_lcd_panel_io_tx_color (-1) [];
                                       lv_disp_flush_ready]).
  { unfold added, added_by, lvgl_flush_cb, bind; rewrite E.
    destruct (failed r); cbn [ret snd].
    - rewrite Ht; apply skipn_length_app.
    - unfold extern; fold draw.
      destruct (failed (bus (trace st1) draw));
        cbn [ret snd notify record_call trace]; rewrite Ht;
        rewrite <- ?app_assoc; cbn [app]; apply skipn_length_app. }
  rewrite Hw, Hadded; split; [exact Hnot |].
  destruct (failed r) eqn:Fr;
    [apply failed_true in Fr | apply failed_false in Fr].
  - repeat split; congruence || tauto.
  - destruct (failed (bus (trace st1) draw)) eqn:Fd;
      [apply failed_true in Fd | apply failed_false in Fd].
    + repeat split; try (congruence || tauto).
      exfalso.
      match goal with
      | Hin : In _ (_ ++ _) |- _ =>
          apply in_app_or in Hin;
          destruct Hin as [Hin | [Hin | []]]; [contradiction | discriminate]
      end.
    + repeat split; try (congruence || tauto).
      intros _; apply in_or_app; right; simpl; auto.
Qed.

End DrawArea.

(** ** Orientation changes *)

Section Orientation.

Variable bus : list call -> call -> esp_err_t.
Variable heap : list call -> Z -> bool.

Lemma same_orientation_state_refl st : same_orientation_state st st.
Proof. split; reflexivity. Qed.

Lemma same_orientation_state_trans st1 st2 st3 :
  same_orientation_state st1 st2 -> same_orientation_state st2 st3 ->
  same_orientation_state st1 st3.
Proof. intros [A B] [C D]; split; congruence. Qed.

Lemma same_orientation_state_record c st :
  same_orientation_state st (record_call c st).
Proof. split; reflexivity. Qed.

(** [clear_screen] draws; it never writes the orientation state. *)
Lemma clear_screen_frame color st :
  same_orientation_state st (snd (clear_screen bus heap color st)).
Proof.
  unfold clear_screen, bind, malloc.
  set (h := if is_portrait (current_orientation st)
            then LCD_H_RES else LCD_V_RES).
  set (v := if is_portrait (current_orientation st)
            then LCD_V_RES else LCD_H_RES).
  set (st0 := record_call _ st).
  assert (H0 : same_orientation_state st st0)
    by apply same_orientation_state_record.
  destruct (heap (trace st) _); cbn [negb ret snd]; [| exact H0].
  destruct (set_draw_area bus 0 (sub_int h 1) 0 (sub_int v 1) st0)
    as [r st1] eqn:E.
  destruct (set_draw_area_spec _ _ _ _ _ _ _ _ E) as [H1 _].
  pose proof (same_orientation_state_trans _ _ _ H0 H1) as H01.
  destruct (failed r); unfold notify, extern, ret; cbn [snd].
  - eapply same_orientation_state_trans;
      [exact H01 | apply same_orientation_state_record].
  - repeat (eapply same_orientation_state_trans;
            [| apply same_orientation_state_record]).
    exact H01.
Qed.

Lemma set_display_orientation_unfold orientation st :
  set_display_orientation bus heap orientation st =
  match orientation_switch orientation with
  | None => (ESP_ERR_INVALID_ARG, st)
  | Some p =>
      let st1 := record_call (madctl_command p) st in
      if failed (madctl_result bus p st) then (madctl_result bus p st, st1)
      else
        let st2 := record_call (gap_command p) st1 in
        if failed (gap_result bus p st) then (gap_result bus p st, st2)
        else
          let (_, st3) :=
            update_lvgl_resolution orientation p
              (set_current_orientation orientation st2) in
          let (r, st4) := clear_screen bus heap 0 st3 in
          if failed r then (r, st4) else (ESP_OK, st4)
  end.
Proof.
  unfold set_display_orientation.
  destruct (orientation_switch orientation) as [p |]; [| reflexivity].
  cbv beta iota zeta
      delta [bind extern ret madctl_result gap_result madctl_command
               gap_command record_call trace].
  repeat match goal with
         | |- context [if failed ?x then _ else _] =>
             destruct (failed x); [reflexivity |]
         end.
  destruct (update_lvgl_resolution _ _ _) as [u st3].
  destruct (clear_screen bus heap 0 st3) as [r st4].
  destruct (failed r); reflexivity.
Qed.

(** [set_display_orientation] in full. *)
Lemma set_display_orientation_spec orientation st :
  match orientation_switch orientation with
  | None =>
      set_display_orientation bus heap orientation st
      = (ESP_ERR_INVALID_ARG, st)
  | Some p =>
      if failed (madctl_result bus p st) then
        set_display_orientation bus heap orientation st
        = (madctl_result bus p st, record_call (madctl_command p) st)
      else if failed (gap_result bus p st) then
        set_display_orientation bus heap orientation st
        = (gap_result bus p st,
           record_call (gap_command p) (record_call (madctl_command p) st))
      else
        let st' := snd (set_display_orientation bus heap orientation st) in
        current_orientation st' = orientation /\
        lvgl_disp st' = with_resolution p (lvgl_disp st)
  end.
Proof.
  rewrite set_display_orientation_unfold.
  destruct (orientation_switch orientation) as [p |]; [| reflexivity].
  cbv zeta.
  destruct (failed (madctl_result bus p st)); [reflexivity |].
  destruct (failed (gap_result bus p st)); [reflexivity |].
  set (st2 := set_current_orientation orientation _).
  destruct (update_lvgl_resolution orientation p st2) as [u st3] eqn:U.
  assert (H3 : current_orientation st3 = orientation /\
               lvgl_disp st3 = with_resolution p (lvgl_disp st)).
  { unfold update_lvgl_resolution, notify in U; subst st2.
    cbn [set_current_orientation set_lvgl_disp record_call lvgl_disp] in U.
    destruct (lvgl_disp st) eqn:L; inversion U; subst;
      cbn [set_current_orientation set_lvgl_disp record_call lvgl_disp
           current_orientation with_resolution];
      rewrite ?L; split; reflexivity. }
  pose proof (clear_screen_frame 0 st3) as [Ho Hd].
  destruct (clear_screen bus heap 0 st3) as [r st4]; cbn [snd] in *.
  destruct H3 as [H3o H3d].
  destruct (failed r); cbn [snd]; split; congruence.
Qed.

(** C6. For every value outside the four orientations,
    [set_display_orientation] returns [ESP_ERR_INVALID_ARG] and leaves the
    whole state as it was: no command is sent (the trace is the same) and
    no global is written. *)
Theorem set_display_orientation_invalid :
  forall orientation st,
    ~ valid_orientation orientation ->
    set_display_orientation bus heap orientation st
    = (ESP_ERR_INVALID_ARG, st).
Proof.
  intros o st Hinv.
  pose proof (set_display_orientation_spec o st) as S.
  destruct (orientation_switch o) eqn:Sw; [| exact S].
  exfalso; apply Hinv, valid_orientation_switch; congruence.
Qed.

(** C4, as the code has it.  A failure of [set_display_orientation]
    before its screen clear (the value is refused, or the MADCTL or the gap
    write is) leaves [current_orientation] and the derived resolution as
    they were, and returns the error of that step: [ESP_ERR_INVALID_ARG]
    with nothing sent, the bus's answer to MADCTL with only MADCTL sent, or
    the bus's answer to the gap write with those two sent.  Once both
    writes have succeeded the new orientation and resolution are stored
    before the screen clear starts, and the value returned is the result of
    that clear: a failed clear is returned as the failure, with the new
    orientation state in place. *)
Theorem set_display_orientation_failure_frame :
  forall orientation st r st',
    set_display_orientation bus heap orientation st = (r, st') ->
    (fails_before_clear bus orientation st ->
     r <> ESP_OK /\ same_orientation_state st st') /\
    (orientation_switch orientation = None ->
     r = ESP_ERR_INVALID_ARG /\ st' = st) /\
    (forall p,
        orientation_switch orientation = Some p ->
        (madctl_result bus p st <> ESP_OK ->
         r = madctl_result bus p st /\
         st' = record_call (madctl_command p) st) /\
        (madctl_result bus p st = ESP_OK ->
         gap_result bus p st <> ESP_OK ->
         r = gap_result bus p st /\
         st' = record_call (gap_command p)
                 (record_call (madctl_command p) st)) /\
        (madctl_result bus p st = ESP_OK ->
         gap_result bus p st = ESP_OK ->
         current_orientation st' = orientation /\
         lvgl_disp st' = with_resolution p (lvgl_disp st) /\
         exists stored,
           current_orientation stored = orientation /\
           lvgl_disp stored = with_resolution p (lvgl_disp st) /\
           trace stored
           = trace st ++
             madctl_command p :: gap_command p ::
             match lvgl_disp st with
             | Some _ => [lv_disp_set_rotation (mul_int orientation 90)]
             | None => []
             end /\
           r = fst (clear_screen bus heap 0 stored) /\
           st' = snd (clear_screen bus heap 0 stored))).
Proof.
  intros o st r st' E.
  pose proof (set_display_orientation_unfold o st) as U; rewrite E in U.
  pose proof (set_display_orientation_spec o st) as S; rewrite E in S.
  unfold fails_before_clear.
  destruct (orientation_switch o) as [p |] eqn:Sw.
  - cbv zeta in U.
    destruct (failed (madctl_result bus p st)) eqn:F1.
    { inversion U; subst; apply failed_true in F1.
      split; [intros _; split;
              [exact F1 | apply same_orientation_state_record] |].
      split; [discriminate |].
      intros q Hq; inversion Hq; subst q.
      repeat split; try reflexivity; intros; contradiction. }
    destruct (failed (gap_result bus p st)) eqn:F2.
    { inversion U; subst; apply failed_true in F2; apply failed_false in F1.
      split; [intros _; split; [exact F2 |];
              eapply same_orientation_state_trans;
              apply same_orientation_state_record |].
      split; [discriminate |].
      intros q Hq; inversion Hq; subst q.
      repeat split; try reflexivity; intros; contradiction. }
    apply failed_false in F1, F2; cbn [snd] in S.
    split; [intros [H | H]; contradiction |].
    split; [discriminate |].
    intros q Hq; inversion Hq; subst q.
    split; [intros H; contradiction |].
    split; [intros _ H; contradiction |].
    intros _ _; destruct S as [So Sd].
    split; [exact So |]; split; [exact Sd |].
    set (st2 := set_current_orientation o _) in U.
    exists (snd (update_lvgl_resolution o p st2)).
    assert (H3 : current_orientation (snd (update_lvgl_resolution o p st2)) = o
                 /\ lvgl_disp (snd (update_lvgl_resolution o p st2))
                    = with_resolution p (lvgl_disp st)
                 /\ trace (snd (update_lvgl_resolution o p st2))
                    = trace st ++
                      madctl_command p :: gap_command p ::
                      match lvgl_disp st with
                      | Some _ => [lv_disp_set_rotation (mul_int o 90)]
                      | None => []
                      end).
    { unfold update_lvgl_resolution, notify; subst st2.
      cbn [set_current_orientation set_lvgl_disp record_call lvgl_disp].
      destruct (lvgl_disp st) eqn:L;
        cbn [snd set_current_orientation set_lvgl_disp record_call lvgl_disp
             current_orientation trace with_resolution];
        rewrite ?L; cbn [with_resolution];
        rewrite <- ?app_assoc; cbn [app]; repeat split; reflexivity. }
    destruct H3 as (H3o & H3d & H3t).
    split; [exact H3o |]; split; [exact H3d |]; split; [exact H3t |].
    destruct (update_lvgl_resolution o p st2) as [u st3]; cbn [snd].
    destruct (clear_screen bus heap 0 st3) as [rc st4] eqn:C; cbn [fst snd].
    destruct (failed rc) eqn:Fc; inversion U; subst; [auto |].
    apply failed_false in Fc; auto.
  - inversion U; subst.
    split; [intros _; split;
            [discriminate | apply same_orientation_state_refl] |].
    split; [auto |].
    intros q Hq; discriminate.
Qed.

End Orientation.

(** ** Start-up and the reachable states *)

Section Startup.

Variable bus : list call -> call -> esp_err_t.
Variable heap : list call -> Z -> bool.

Lemma send_init_cmds_frame cmds st :
  same_orientation_state st (snd (send_init_cmds bus cmds st)).
Proof.
  revert st; induction cmds as [| c rest IH]; intros st.
  - apply same_orientation_state_refl.
  - cbn [send_init_cmds].
    destruct (negb (addr c =? 0) || negb (len c =? 255));
      [| apply same_orientation_state_refl].
    unfold bind, extern.
    destruct (negb (Z.land (len c) 128 =? 0)); unfold notify, ret;
      (eapply same_orientation_state_trans; [| apply IH]).
    + eapply same_orientation_state_trans;
        apply same_orientation_state_record.
    + apply same_orientation_state_record.
Qed.

(** Whatever it returns, [set_display_orientation] leaves a valid
    orientation valid, and the orientation it was asked for unchanged when
    that is the current one. *)
Lemma set_display_orientation_orientation orientation st :
  let st' := snd (set_display_orientation bus heap orientation st) in
  current_orientation st' = current_orientation st \/
  (current_orientation st' = orientation /\ valid_orientation orientation).
Proof.
  pose proof (set_display_orientation_spec bus heap orientation st) as S.
  destruct (orientation_switch orientation) as [p |] eqn:Sw.
  - destruct (failed (madctl_result bus p st)); [rewrite S; now left |].
    destruct (failed (gap_result bus p st)); [rewrite S; now left |].
    right; split; [apply S |].
    apply valid_orientation_switch; congruence.
  - rewrite S; now left.
Qed.

Lemma lvgl_flush_cb_frame area color_p st :
  same_orientation_state st (snd (lvgl_flush_cb bus area color_p st)).
Proof.
  unfold lvgl_flush_cb, bind.
  destruct (set_draw_area bus (x1 area) (x2 area) (y1 area) (y2 area) st)
    as [r st1] eqn:E.
  destruct (set_draw_area_spec _ _ _ _ _ _ _ _ E) as [H1 _].
  destruct (failed r); cbn [ret snd]; [exact H1 |].
  unfold extern.
  destruct (failed (bus (trace st1) _)); unfold notify, ret; cbn [snd];
    repeat (eapply same_orientation_state_trans;
            [| apply same_orientation_state_record]);
    exact H1.
Qed.

Lemma init_display_orientation st :
  current_orientation st = DISPLAY_ORIENTATION_90 ->
  let st' := snd (init_display bus heap st) in
  current_orientation st' = DISPLAY_ORIENTATION_90 /\
  (lvgl_disp st = None -> lvgl_disp st' = None).
Proof.
  intros H90; unfold init_display, bind.
  pose proof (send_init_cmds_frame lcd_st7789v st) as [Ho Hd].
  destruct (send_init_cmds bus lcd_st7789v st) as [u st1]; cbn [snd] in *.
  pose proof (set_display_orientation_orientation DISPLAY_ORIENTATION_90 st1)
    as Hs.
  pose proof (set_display_orientation_spec bus heap DISPLAY_ORIENTATION_90 st1)
    as S.
  destruct (set_display_orientation bus heap DISPLAY_ORIENTATION_90 st1)
    as [r st2]; cbn [snd ret] in *.
  split; [destruct Hs as [Hs | [Hs _]]; congruence |].
  intros Hnone; rewrite <- Hd in Hnone.
  change (orientation_switch DISPLAY_ORIENTATION_90)
    with (Some {| madctl := 0x68; hor_res := LCD_V_RES; ver_res := LCD_H_RES;
                  x_gap := 0; y_gap := 35 |}) in S; cbv iota in S.
  destruct (failed (madctl_result bus _ st1));
    [inversion S; subst; exact Hnone |].
  destruct (failed (gap_result bus _ st1));
    [inversion S; subst; exact Hnone |].
  destruct S as [_ S]; rewrite S, Hnone; reflexivity.
Qed.

(** The orientation state is valid in every reachable state: the
    [default] branch of [set_draw_area] is never taken. *)
Lemma reachable_valid_orientation st :
  reachable bus heap st -> valid_orientation (current_orientation st).
Proof.
  induction 1 as [| st R IH | st R IH | st o R IH
                  | st xs xe ys ye R IH | st color R IH
                  | st area color_p R IH].
  - right; left; reflexivity.
  - unfold init_display, bind.
    pose proof (send_init_cmds_frame lcd_st7789v st) as [Ho _].
    destruct (send_init_cmds bus lcd_st7789v st) as [u st1]; cbn [snd] in *.
    pose proof (set_display_orientation_orientation
                  DISPLAY_ORIENTATION_90 st1) as Hs.
    destruct (set_display_orientation bus heap DISPLAY_ORIENTATION_90 st1)
      as [r st2]; cbn [snd ret] in *.
    destruct Hs as [Hs | [Hs Hv]]; rewrite Hs; [now rewrite Ho | exact Hv].
  - exact IH.
  - destruct (set_display_orientation_orientation o st) as [Hs | [Hs Hv]];
      rewrite Hs; assumption.
  - destruct (set_draw_area bus xs xe ys ye st) as [r st'] eqn:E.
    destruct (set_draw_area_spec _ _ _ _ _ _ _ _ E) as [[Ho _] _].
    cbn [snd]; now rewrite Ho.
  - destruct (clear_screen_frame bus heap color st) as [Ho _].
    now rewrite Ho.
  - destruct (lvgl_flush_cb_frame area color_p st) as [Ho _].
    now rewrite Ho.
Qed.

End Startup.

(** ** The orientation table *)

(** C5. The switch of [set_display_orientation] resolves the four
    orientations to: 170 x 320 with gaps (35, 0) for 0 and 180 degrees, and
    the swapped 320 x 170 with gaps (0, 35) for 90 and 270 degrees; the
    resolution is the swapped one exactly for 90 and 270 degrees. *)
Theorem orientation_switch_table :
  LCD_H_RES = 170 /\ LCD_V_RES = 320 /\
  orientation_switch DISPLAY_ORIENTATION_0
  = Some {| madctl := 0x08; hor_res := LCD_H_RES; ver_res := LCD_V_RES;
            x_gap := 35; y_gap := 0 |} /\
  orientation_switch DISPLAY_ORIENTATION_90
  = Some {| madctl := 0x68; hor_res := LCD_V_RES; ver_res := LCD_H_RES;
            x_gap := 0; y_gap := 35 |} /\
  orientation_switch DISPLAY_ORIENTATION_180
  = Some {| madctl := 0xC8; hor_res := LCD_H_RES; ver_res := LCD_V_RES;
            x_gap := 35; y_gap := 0 |} /\
  orientation_switch DISPLAY_ORIENTATION_270
  = Some {| madctl := 0xA8; hor_res := LCD_V_RES; ver_res := LCD_H_RES;
            x_gap := 0; y_gap := 35 |} /\
  (forall o p,
      orientation_switch o = Some p ->
      ((hor_res p = LCD_V_RES /\ ver_res p = LCD_H_RES /\
        x_gap p = 0 /\ y_gap p = 35) <->
       (o = DISPLAY_ORIENTATION_90 \/ o = DISPLAY_ORIENTATION_270)) /\
      ((hor_res p = LCD_H_RES /\ ver_res p = LCD_V_RES /\
        x_gap p = 35 /\ y_gap p = 0) <->
       (o = DISPLAY_ORIENTATION_0 \/ o = DISPLAY_ORIENTATION_180))).
Proof.
  do 6 (split; [reflexivity |]).
  intros o p; unfold orientation_switch.
  unfold DISPLAY_ORIENTATION_0, DISPLAY_ORIENTATION_90,
    DISPLAY_ORIENTATION_180, DISPLAY_ORIENTATION_270, LCD_H_RES, LCD_V_RES.
  destruct (Z.eqb_spec o 0);
    [| destruct (Z.eqb_spec o 1);
       [| destruct (Z.eqb_spec o 2);
          [| destruct (Z.eqb_spec o 3); [| discriminate]]]];
    intros E; inversion E; subst; cbn [hor_res ver_res x_gap y_gap];
    repeat split; intros; try lia; auto.
Qed.

(** With both command writes accepted, the table entry is what
    [set_display_orientation] applies: the gap command carries its gaps and
    a registered LVGL driver receives its resolution. *)
Lemma set_display_orientation_applies_table bus heap o p st :
  orientation_switch o = Some p ->
  madctl_result bus p st = ESP_OK ->
  gap_result bus p st = ESP_OK ->
  let st' := snd (set_display_orientation bus heap o st) in
  current_orientation st' = o /\
  lvgl_disp st' = with_resolution p (lvgl_disp st) /\
  gap_command p = esp_lcd_panel_set_gap (x_gap p) (y_gap p).
Proof.
  intros Sw H1 H2.
  pose proof (set_display_orientation_spec bus heap o st) as S.
  rewrite Sw, H1, H2 in S; cbn [failed] in S.
  change (failed ESP_OK) with false in S; cbv iota in S.
  destruct S as [So Sd]; repeat split; assumption.
Qed.

(** ** Clamping *)


(** Outside that case: a rectangle with no part on the panel, which no
    caller in the source passes, keeps its off-panel edge, since only the
    start is clamped at 0 and only the end at the far edge.  At 0 degrees
    the rectangle x = 200..300 yields columns 200..169, and x = -10..-5
    yields the end column 65531. *)
Lemma set_draw_area_off_panel_example :
  (200 <= 300 /\ 0 <= 0 /\
   translate DISPLAY_ORIENTATION_0 200 300 0 0
   = Some {| col_start := 200; col_end := 169;
             row_start := 0; row_end := 0 |} /\
   ~ window_in_bounds {| col_start := 200; col_end := 169;
                         row_start := 0; row_end := 0 |}) /\
  (-10 <= -5 /\ 0 <= 0 /\
   translate DISPLAY_ORIENTATION_0 (-10) (-5) 0 0
   = Some {| col_start := 0; col_end := 65531;
             row_start := 0; row_end := 0 |} /\
   ~ window_in_bounds {| col_start := 0; col_end := 65531;
                         row_start := 0; row_end := 0 |}).
Proof.
  split; (split; [lia |]); (split; [lia |]); (split; [reflexivity |]);
    unfold window_in_bounds; cbn [col_start col_end row_start row_end]; lia.
Qed.


(** ** Worked instances *)

(** The scenarios of the design notes: the full surface in each
    orientation, and a partial rectangle at 180 degrees, which shows the
    inversion. *)
Example translate_full_surface_0 :
  translate DISPLAY_ORIENTATION_0 0 169 0 319
  = Some {| col_start := 0; col_end := 169; row_start := 0; row_end := 319 |}.
Proof. reflexivity. Qed.

Example translate_full_surface_90 :
  translate DISPLAY_ORIENTATION_90 0 319 0 169
  = Some {| col_start := 0; col_end := 169; row_start := 0; row_end := 319 |}.
Proof. reflexivity. Qed.

Example translate_full_surface_180 :
  translate DISPLAY_ORIENTATION_180 0 169 0 319
  = Some {| col_start := 0; col_end := 169; row_start := 0; row_end := 319 |}.
Proof. reflexivity. Qed.

Example translate_partial_180 :
  translate DISPLAY_ORIENTATION_180 0 9 0 19
  = Some {| col_start := 160; col_end := 169;
            row_start := 300; row_end := 319 |}.
Proof. reflexivity. Qed.

Example translate_partial_270 :
  translate DISPLAY_ORIENTATION_270 0 9 0 19
  = Some {| col_start := 150; col_end := 169;
            row_start := 310; row_end := 319 |}.
Proof. reflexivity. Qed.

Example translate_invalid_state :
  translate 4 0 9 0 19 = None.
Proof. reflexivity. Qed.

Example set_draw_area_full_surface_90 :
  set_draw_area bus_ok 0 319 0 169 registered_state
  = (ESP_OK,
     record_call (esp_lcd_panel_io_tx_param 0x2C [])
       (record_call (esp_lcd_panel_io_tx_param 0x2B [0; 0; 1; 63])
          (record_call (esp_lcd_panel_io_tx_param 0x2A [0; 0; 0; 169])
             registered_state))).
Proof. reflexivity. Qed.

Lemma set_display_orientation_invalid_witness :
  ~ valid_orientation 4 /\
  set_display_orientation bus_ok heap_ok 4 registered_state
  = (ESP_ERR_INVALID_ARG, registered_state).
Proof.
  assert (H : ~ valid_orientation 4)
    by (intros [H | [H | [H | H]]]; discriminate H).
  split; [exact H |].
  exact (set_display_orientation_invalid bus_ok heap_ok 4 registered_state H).
Defined.

Lemma set_display_orientation_failure_frame_witness :
  (fails_before_clear (bus_refusing 0x36) DISPLAY_ORIENTATION_0
     registered_state /\
   fst (set_display_orientation (bus_refusing 0x36) heap_ok
          DISPLAY_ORIENTATION_0 registered_state) <> ESP_OK /\
   same_orientation_state registered_state
     (snd (set_display_orientation (bus_refusing 0x36) heap_ok
             DISPLAY_ORIENTATION_0 registered_state))) /\
  (exists stored,
      current_orientation stored = DISPLAY_ORIENTATION_0 /\
      fst (set_display_orientation (bus_refusing 0x2A) heap_ok
             DISPLAY_ORIENTATION_0 registered_state)
      = fst (clear_screen (bus_refusing 0x2A) heap_ok 0 stored) /\
      snd (set_display_orientation (bus_refusing 0x2A) heap_ok
             DISPLAY_ORIENTATION_0 registered_state)
      = snd (clear_screen (bus_refusing 0x2A) heap_ok 0 stored)).
Proof.
  split.
  - assert (H : fails_before_clear (bus_refusing 0x36) DISPLAY_ORIENTATION_0
                  registered_state)
      by (left; discriminate).
    split; [exact H |].
    exact (proj1 (set_display_orientation_failure_frame
                    (bus_refusing 0x36) heap_ok DISPLAY_ORIENTATION_0
                    registered_state _ _ (surjective_pairing _)) H).
  - destruct (proj2 (proj2
                (proj2 (proj2
                   (set_display_orientation_failure_frame
                      (bus_refusing 0x2A) heap_ok DISPLAY_ORIENTATION_0
                      registered_state _ _ (surjective_pairing _)))
                   _ eq_refl)) eq_refl eq_refl)
      as (_ & _ & stored & Ho & _ & _ & Hr & Hs).
    exists stored; auto.
Defined.

(** The claim without the restriction fails: when the bus refuses the
    CASET command of the screen clear, [set_display_orientation] returns the
    failure with the new orientation and resolution already stored. *)
Lemma set_display_orientation_failure_counterexample :
  fst (set_display_orientation (bus_refusing 0x2A) heap_ok
         DISPLAY_ORIENTATION_0 registered_state) = ESP_FAIL /\
  ESP_FAIL <> ESP_OK /\
  current_orientation registered_state = DISPLAY_ORIENTATION_90 /\
  current_orientation
    (snd (set_display_orientation (bus_refusing 0x2A) heap_ok
            DISPLAY_ORIENTATION_0 registered_state))
  = DISPLAY_ORIENTATION_0 /\
  lvgl_disp registered_state
  = Some {| drv_hor_res := 320; drv_ver_res := 170 |} /\
  lvgl_disp
    (snd (set_display_orientation (bus_refusing 0x2A) heap_ok
            DISPLAY_ORIENTATION_0 registered_state))
  = Some {| drv_hor_res := 170; drv_ver_res := 320 |} /\
  ~ same_orientation_state registered_state
      (snd (set_display_orientation (bus_refusing 0x2A) heap_ok
              DISPLAY_ORIENTATION_0 registered_state)).
Proof.
  assert (E : set_display_orientation (bus_refusing 0x2A) heap_ok
                DISPLAY_ORIENTATION_0 registered_state
              = (ESP_FAIL,
                 {| current_orientation := DISPLAY_ORIENTATION_0;
                    lvgl_disp := Some {| drv_hor_res := 170;
                                         drv_ver_res := 320 |};
                    trace := [ esp_lcd_panel_io_tx_param 0x36 [0x08];
                               esp_lcd_panel_set_gap 35 0;
                               lv_disp_set_rotation 0;
                               heap_caps_malloc 108800;
                               esp_lcd_panel_io_tx_param 0x2A [0; 0; 0; 169];
                               free ] |}))
    by (vm_compute; reflexivity).
  rewrite E; cbn [fst snd current_orientation lvgl_disp].
  repeat split; try reflexivity; try discriminate.
  intros [H _]; cbn [current_orientation registered_state] in H; discriminate.
Qed.

Lemma set_draw_area_command_sequence_witness :
  (set_draw_area bus_ok 0 319 0 169 registered_state
   = (ESP_OK, snd (set_draw_area bus_ok 0 319 0 169 registered_state)) /\
   exists w,
     translate (current_orientation registered_state) 0 319 0 169 = Some w /\
     is_uint16_window w /\
     (forall v,
         In v [col_start w; col_end w; row_start w; row_end w] ->
         0 <= v / 256 < 256 /\ 0 <= v mod 256 < 256 /\
         256 * (v / 256) + v mod 256 = v) /\
     trace (snd (set_draw_area bus_ok 0 319 0 169 registered_state))
     = trace registered_state ++
       [ esp_lcd_panel_io_tx_param 0x2A
           [col_start w / 256; col_start w mod 256;
            col_end w / 256; col_end w mod 256];
         esp_lcd_panel_io_tx_param 0x2B
           [row_start w / 256; row_start w mod 256;
            row_end w / 256; row_end w mod 256];
         esp_lcd_panel_io_tx_param 0x2C [] ] /\
     accepted bus_ok (trace registered_state) (window_commands w) 3) /\
  (fst (set_draw_area (bus_refusing 0x2B) 0 319 0 169 registered_state)
   = ESP_FAIL /\
   trace (snd (set_draw_area (bus_refusing 0x2B) 0 319 0 169 registered_state))
   = [ esp_lcd_panel_io_tx_param 0x2A [0; 0; 0; 169];
       esp_lcd_panel_io_tx_param 0x2B [0; 0; 1; 63] ]).
Proof.
  split.
  - split; [reflexivity |].
    exact (proj1 (set_draw_area_command_sequence bus_ok 0 319 0 169
                    registered_state ESP_OK _ eq_refl) eq_refl).
  - destruct (proj2 (proj2 (proj2
                (set_draw_area_command_sequence (bus_refusing 0x2B)
                   0 319 0 169 registered_state _ _ (surjective_pairing _))))
                {| col_start := 0; col_end := 169;
                   row_start := 0; row_end := 319 |} eq_refl)
      as [_ Hrefused].
    destruct (Hrefused 1%nat) as (Hr & _ & Ht).
    + repeat constructor.
    + intros k Hk; destruct k as [| k]; [reflexivity |].
      exfalso; inversion Hk as [| ? Hk']; inversion Hk'.
    + discriminate.
    + split; [exact Hr | exact Ht].
Defined.

(** A refused RASET: the column window was sent, the row window was
    refused, the memory write was never issued. *)
Example set_draw_area_refused_raset :
  set_draw_area (bus_refusing 0x2B) 0 319 0 169 registered_state
  = (ESP_FAIL,
     record_call (esp_lcd_panel_io_tx_param 0x2B [0; 0; 1; 63])
       (record_call (esp_lcd_panel_io_tx_param 0x2A [0; 0; 0; 169])
          registered_state)).
Proof. reflexivity. Qed.

Lemma set_draw_area_failure_retry_witness :
  (fst (set_draw_area bus_failing_once 0 319 0 169 registered_state)
   <> ESP_OK /\
   valid_orientation (current_orientation registered_state) /\
   recovered bus_failing_once
     (snd (set_draw_area bus_failing_once 0 319 0 169 registered_state))) /\
  exists w st'',
    translate (current_orientation registered_state) 0 319 0 169 = Some w /\
    set_draw_area bus_failing_once 0 319 0 169
      (snd (set_draw_area bus_failing_once 0 319 0 169 registered_state))
    = (ESP_OK, st'') /\
    trace st''
    = trace (snd (set_draw_area bus_failing_once 0 319 0 169 registered_state))
      ++ window_commands w /\
    same_orientation_state registered_state st''.
Proof.
  assert (Hr : fst (set_draw_area bus_failing_once 0 319 0 169 registered_state)
               <> ESP_OK) by discriminate.
  assert (Hv : valid_orientation (current_orientation registered_state))
    by (right; left; reflexivity).
  assert (Hrec : recovered bus_failing_once
                   (snd (set_draw_area bus_failing_once 0 319 0 169
                           registered_state)))
    by (intros later c; reflexivity).
  split; [repeat split; assumption |].
  exact (proj2 (proj2 (proj2 (proj2
           (set_draw_area_failure_retry bus_failing_once 0 319 0 169
              registered_state _ _ (surjective_pairing _) Hr)))) Hv Hrec).
Defined.

Lemma lvgl_flush_cb_completion_witness :
  set_draw_area bus_ok 0 9 0 9 registered_state
  = (ESP_OK, snd (set_draw_area bus_ok 0 9 0 9 registered_state)) /\
  In lv_disp_flush_ready
     (added_by (lvgl_flush_cb bus_ok {| x1 := 0; y1 := 0; x2 := 9; y2 := 9 |}
                  [0xF800; 0x001F])
               registered_state).
Proof.
  split; [reflexivity |].
  apply (proj2 (proj2 (proj2 (proj2
           (lvgl_flush_cb_completion bus_ok
              {| x1 := 0; y1 := 0; x2 := 9; y2 := 9 |} [0xF800; 0x001F]
              registered_state ESP_OK _ eq_refl))))).
  split; reflexivity.
Defined.

(** The three outcomes of a flush. *)
Example lvgl_flush_cb_success :
  added_by (lvgl_flush_cb bus_ok {| x1 := 0; y1 := 0; x2 := 9; y2 := 9 |}
              [0xF800; 0x001F])
           registered_state
  = [ esp_lcd_panel_io_tx_param 0x2A [0; 0; 0; 9];
      esp_lcd_panel_io_tx_param 0x2B [0; 0; 0; 9];
      esp_lcd_panel_io_tx_param 0x2C [];
      esp_lcd_panel_draw_bitmap 0 0 10 10 [0xF800; 0x001F];
      esp_lcd_panel_io_tx_color (-1) [];
      lv_disp_flush_ready ].
Proof. reflexivity. Qed.

Example lvgl_flush_cb_refused_window :
  added_by (lvgl_flush_cb (bus_refusing 0x2A)
              {| x1 := 0; y1 := 0; x2 := 9; y2 := 9 |} [0xF800; 0x001F])
           registered_state
  = [ esp_lcd_panel_io_tx_param 0x2A [0; 0; 0; 9] ].
Proof. reflexivity. Qed.

(** The vendor table is sent up to its end marker: 18 commands, with a
    delay after the first and the last. *)
Example send_init_cmds_table :
  length (trace (snd (send_init_cmds bus_ok lcd_st7789v initial_state)))
  = 20%nat /\
  nth 0 (trace (snd (send_init_cmds bus_ok lcd_st7789v initial_state))) free
  = esp_lcd_panel_io_tx_param 0x11 [] /\
  nth 17 (trace (snd (send_init_cmds bus_ok lcd_st7789v initial_state))) free
  = esp_lcd_panel_io_tx_param 0x2B [0x00; 0x00; 0x00; 0xA9] /\
  nth 19 (trace (snd (send_init_cmds bus_ok lcd_st7789v initial_state))) free
  = vTaskDelay 120.
Proof. repeat split. Qed.

(** A screen clear in the default orientation: allocation, window, one
    transfer of 320 x 170 pixels of the colour, end of transfer, release. *)
Example clear_screen_default :
  fst (clear_screen bus_ok heap_ok 0x0000 registered_state) = ESP_OK /\
  added_by (clear_screen bus_ok heap_ok 0x0000) registered_state
  = [ heap_caps_malloc 108800;
      esp_lcd_panel_io_tx_param 0x2A [0; 0; 0; 169];
      esp_lcd_panel_io_tx_param 0x2B [0; 0; 1; 63];
      esp_lcd_panel_io_tx_param 0x2C [];
      esp_lcd_panel_draw_bitmap 0 0 320 170 (fill_buffer (320 * 170) 0);
      esp_lcd_panel_io_tx_color (-1) [];
      free ].
Proof. split; reflexivity. Qed.

(** A refused gap write: the MADCTL command has been sent, the orientation
    state is the old one. *)
Example set_display_orientation_refused_gap :
  set_display_orientation
    (fun _ c => match c with
                | esp_lcd_panel_set_gap _ _ => ESP_FAIL
                | _ => ESP_OK
                end)
    heap_ok DISPLAY_ORIENTATION_180 registered_state
  = (ESP_FAIL,
     {| current_orientation := DISPLAY_ORIENTATION_90;
        lvgl_disp := Some {| drv_hor_res := 320; drv_ver_res := 170 |};
        trace := [ esp_lcd_panel_io_tx_param 0x36 [0xC8];
                   esp_lcd_panel_set_gap 35 0 ] |}).
Proof. reflexivity. Qed.

(** * Further properties *)

(** ** The translation *)

Lemma rect_on_panel_is_int o c :
  rect_on_panel o c ->
  is_int (r_x_start c) /\ is_int (r_x_end c) /\
  is_int (r_y_start c) /\ is_int (r_y_end c).
Proof.
  intros (H1 & H2 & H3 & H4 & H5 & H6).
  pose proof (max_x_bounds o); pose proof (max_y_bounds o).
  unfold is_int; lia.
Qed.

Lemma translate_rect_on_panel o c :
  rect_on_panel o c -> translate_rect o c = spec_window o c.
Proof.
  intros Hc; pose proof Hc as (H1 & H2 & H3 & H4 & H5 & H6).
  destruct (rect_on_panel_is_int o c Hc) as (I1 & I2 & I3 & I4).
  unfold translate_rect, translate.
  assert (E : clamp_area o (r_x_start c) (r_x_end c) (r_y_start c) (r_y_end c)
              = c).
  { rewrite clamp_area_spec by assumption.
    destruct c as [xs xe ys ye]; cbn [r_x_start r_x_end r_y_start r_y_end] in *.
    f_equal; lia. }
  rewrite E; apply physical_window_exact.
  unfold edges_on_panel; lia.
Qed.

(** X1. The default branch of [set_draw_area]: in an orientation state that is
    none of the four values the call sends nothing, writes nothing and
    returns [ESP_ERR_INVALID_STATE], whatever the rectangle and the bus. *)
Theorem set_draw_area_invalid_state :
  forall bus x_start x_end y_start y_end st,
    ~ valid_orientation (current_orientation st) ->
    set_draw_area bus x_start x_end y_start y_end st
    = (ESP_ERR_INVALID_STATE, st).
Proof.
  intros bus xs xe ys ye st Hinv; unfold set_draw_area.
  destruct (translate (current_orientation st) xs xe ys ye) eqn:T;
    [| reflexivity].
  exfalso; apply Hinv.
  apply (translate_valid _ xs xe ys ye); congruence.
Qed.

Lemma set_draw_area_invalid_state_witness :
  ~ valid_orientation 7 /\
  set_draw_area bus_ok 0 9 0 9
    {| current_orientation := 7; lvgl_disp := None; trace := [] |}
  = (ESP_ERR_INVALID_STATE,
     {| current_orientation := 7; lvgl_disp := None; trace := [] |}).
Proof.
  assert (H : ~ valid_orientation 7)
    by (intros [H | [H | [H | H]]]; discriminate H).
  split; [exact H |].
  exact (set_draw_area_invalid_state bus_ok 0 9 0 9
           {| current_orientation := 7; lvgl_disp := None; trace := [] |} H).
Defined.

(** X2. A rectangle on the panel keeps its size: the window has the width and
    height of the rectangle at 0 and 180 degrees, the two exchanged at 90
    and 270 degrees, and so the same number of pixels in every valid
    orientation. *)
Theorem translate_preserves_size :
  forall o c,
    valid_orientation o -> rect_on_panel o c ->
    exists w,
      translate_rect o c = Some w /\
      window_pixels w = rect_pixels c /\
      (is_portrait o = true ->
       col_end w - col_start w = r_x_end c - r_x_start c /\
       row_end w - row_start w = r_y_end c - r_y_start c) /\
      (is_portrait o = false ->
       col_end w - col_start w = r_y_end c - r_y_start c /\
       row_end w - row_start w = r_x_end c - r_x_start c).
Proof.
  intros o c Ho Hc; rewrite (translate_rect_on_panel o c Hc).
  unfold spec_window, window_pixels, rect_pixels, LCD_H_RES, LCD_V_RES.
  orientation_cases Ho; decide_orientation;
    (eexists; split; [reflexivity |]);
    cbn [col_start col_end row_start row_end];
    (split; [ring_simplify; try reflexivity; lia |]);
    split; intros Hp; try discriminate Hp; lia.
Qed.

Lemma translate_preserves_size_witness :
  (valid_orientation DISPLAY_ORIENTATION_270 /\
   rect_on_panel DISPLAY_ORIENTATION_270
     {| r_x_start := 0; r_x_end := 9; r_y_start := 0; r_y_end := 19 |}) /\
  exists w,
    translate_rect DISPLAY_ORIENTATION_270
      {| r_x_start := 0; r_x_end := 9; r_y_start := 0; r_y_end := 19 |}
    = Some w /\
    window_pixels w = 200.
Proof.
  assert (Hv : valid_orientation DISPLAY_ORIENTATION_270)
    by (right; right; right; reflexivity).
  assert (Hc : rect_on_panel DISPLAY_ORIENTATION_270
                 {| r_x_start := 0; r_x_end := 9;
                    r_y_start := 0; r_y_end := 19 |})
    by (repeat split; apply Z.leb_le; reflexivity).
  split; [split; assumption |].
  destruct (translate_preserves_size DISPLAY_ORIENTATION_270 _ Hv Hc)
    as (w & T & P & _).
  exists w; split; [exact T | exact P].
Defined.

(** X3. Translation keeps containment: when a rectangle on the panel lies
    inside another one, its window lies inside the other's window, in every
    valid orientation (the inverting orientations exchange start and end). *)
Theorem translate_monotone :
  forall o a b,
    valid_orientation o ->
    rect_on_panel o a -> rect_on_panel o b -> rect_inside a b ->
    exists wa wb,
      translate_rect o a = Some wa /\
      translate_rect o b = Some wb /\
      window_inside wa wb.
Proof.
  intros o a b Ho Ha Hb (I1 & I2 & I3 & I4).
  rewrite (translate_rect_on_panel o a Ha), (translate_rect_on_panel o b Hb).
  unfold spec_window, window_inside.
  orientation_cases Ho; decide_orientation;
    (do 2 eexists; split; [reflexivity |]; split; [reflexivity |]);
    cbn [col_start col_end row_start row_end]; lia.
Qed.

Lemma translate_monotone_witness :
  (valid_orientation DISPLAY_ORIENTATION_180 /\
   rect_on_panel DISPLAY_ORIENTATION_180
     {| r_x_start := 10; r_x_end := 20; r_y_start := 30; r_y_end := 40 |} /\
   rect_on_panel DISPLAY_ORIENTATION_180
     {| r_x_start := 0; r_x_end := 100; r_y_start := 0; r_y_end := 200 |} /\
   rect_inside
     {| r_x_start := 10; r_x_end := 20; r_y_start := 30; r_y_end := 40 |}
     {| r_x_start := 0; r_x_end := 100; r_y_start := 0; r_y_end := 200 |}) /\
  exists wa wb,
    translate_rect DISPLAY_ORIENTATION_180
      {| r_x_start := 10; r_x_end := 20; r_y_start := 30; r_y_end := 40 |}
    = Some wa /\
    translate_rect DISPLAY_ORIENTATION_180
      {| r_x_start := 0; r_x_end := 100; r_y_start := 0; r_y_end := 200 |}
    = Some wb /\
    window_inside wa wb.
Proof.
  assert (Hv : valid_orientation DISPLAY_ORIENTATION_180)
    by (right; right; left; reflexivity).
  assert (Ha : rect_on_panel DISPLAY_ORIENTATION_180
                 {| r_x_start := 10; r_x_end := 20;
                    r_y_start := 30; r_y_end := 40 |})
    by (repeat split; apply Z.leb_le; reflexivity).
  assert (Hb : rect_on_panel DISPLAY_ORIENTATION_180
                 {| r_x_start := 0; r_x_end := 100;
                    r_y_start := 0; r_y_end := 200 |})
    by (repeat split; apply Z.leb_le; reflexivity).
  assert (Hi : rect_inside
                 {| r_x_start := 10; r_x_end := 20;
                    r_y_start := 30; r_y_end := 40 |}
                 {| r_x_start := 0; r_x_end := 100;
                    r_y_start := 0; r_y_end := 200 |})
    by (repeat split; apply Z.leb_le; reflexivity).
  split; [repeat split; solve [assumption | apply Ha | apply Hb | apply Hi] |].
  exact (translate_monotone DISPLAY_ORIENTATION_180 _ _ Hv Ha Hb Hi).
Defined.

(** X4. Clamping is idempotent: the clamped edges of an [int] rectangle
    translate to the window of the rectangle itself, in every orientation
    state (both are refused in an invalid one). *)
Theorem translate_clamp_idempotent :
  forall o x_start x_end y_start y_end,
    is_int x_start -> is_int x_end -> is_int y_start -> is_int y_end ->
    translate_rect o (clamp_area o x_start x_end y_start y_end)
    = translate o x_start x_end y_start y_end.
Proof.
  intros o xs xe ys ye Hxs Hxe Hys Hye.
  unfold translate_rect, translate; f_equal.
  rewrite (clamp_area_spec o xs xe ys ye) by assumption.
  cbn [r_x_start r_x_end r_y_start r_y_end].
  pose proof (max_x_bounds o); pose proof (max_y_bounds o).
  rewrite clamp_area_spec by (unfold is_int in *; lia).
  f_equal; lia.
Qed.

Lemma translate_clamp_idempotent_witness :
  (is_int (-5) /\ is_int 200 /\ is_int 300 /\ is_int 400) /\
  translate_rect DISPLAY_ORIENTATION_0
    (clamp_area DISPLAY_ORIENTATION_0 (-5) 200 300 400)
  = translate DISPLAY_ORIENTATION_0 (-5) 200 300 400.
Proof.
  assert (H1 : is_int (-5)) by (apply small_is_int; lia).
  assert (H2 : is_int 200) by (apply small_is_int; lia).
  assert (H3 : is_int 300) by (apply small_is_int; lia).
  assert (H4 : is_int 400) by (apply small_is_int; lia).
  split; [repeat split; solve [apply H1 | apply H2 | apply H3 | apply H4] |].
  exact (translate_clamp_idempotent DISPLAY_ORIENTATION_0 (-5) 200 300 400
           H1 H2 H3 H4).
Defined.

(** X5. Every well-formed physical window is the image of a rectangle on the
    panel: the inverse mapping gives that rectangle, and [set_draw_area]'s
    translation maps it back to the window.  With the round trip on
    rectangles this makes the translation a bijection between the
    rectangles on the panel and the well-formed windows. *)
Theorem translate_onto_windows :
  forall o w,
    valid_orientation o -> window_in_bounds w ->
    exists c,
      logical_of_physical o w = Some c /\
      rect_on_panel o c /\
      translate_rect o c = Some w.
Proof.
  intros o w Ho (B1 & B2 & B3 & B4 & B5 & B6).
  assert (Hc : exists c, logical_of_physical o w = Some c /\
                         rect_on_panel o c /\ spec_window o c = Some w).
  { pose proof (max_x_value o) as Vx; pose proof (max_y_value o) as Vy.
    unfold logical_of_physical, spec_window, rect_on_panel.
    destruct w as [cs ce rs re];
      cbn [col_start col_end row_start row_end] in *.
    orientation_cases Ho; decide_orientation;
      unfold is_portrait in Vx, Vy;
      cbn [Z.eqb Pos.eqb orb DISPLAY_ORIENTATION_0 DISPLAY_ORIENTATION_90
           DISPLAY_ORIENTATION_180 DISPLAY_ORIENTATION_270] in Vx, Vy;
      rewrite Vx, Vy;
      (eexists; split; [reflexivity |]);
      cbn [r_x_start r_x_end r_y_start r_y_end];
      unfold LCD_H_RES, LCD_V_RES;
      (split; [lia | do 2 f_equal; lia]). }
  destruct Hc as (c & L & P & S).
  exists c; split; [exact L |]; split; [exact P |].
  now rewrite (translate_rect_on_panel o c P).
Qed.

Lemma translate_onto_windows_witness :
  (valid_orientation DISPLAY_ORIENTATION_90 /\
   window_in_bounds
     {| col_start := 3; col_end := 50; row_start := 7; row_end := 300 |}) /\
  exists c,
    logical_of_physical DISPLAY_ORIENTATION_90
      {| col_start := 3; col_end := 50; row_start := 7; row_end := 300 |}
    = Some c /\
    rect_on_panel DISPLAY_ORIENTATION_90 c /\
    translate_rect DISPLAY_ORIENTATION_90 c
    = Some {| col_start := 3; col_end := 50; row_start := 7; row_end := 300 |}.
Proof.
  assert (Hv : valid_orientation DISPLAY_ORIENTATION_90)
    by (right; left; reflexivity).
  assert (Hw : window_in_bounds
                 {| col_start := 3; col_end := 50;
                    row_start := 7; row_end := 300 |})
    by (repeat split; apply Z.leb_le; reflexivity).
  split; [split; assumption |].
  exact (translate_onto_windows DISPLAY_ORIENTATION_90 _ Hv Hw).
Defined.

(** ** The orientation table *)

(** X6. The MADCTL byte agrees with the rest of its table entry: the colour
    order bit (bit 3, BGR) is set in every entry, and the axis exchange bit
    (bit 5, MV) is set exactly in the entries with the swapped resolution
    320 x 170, which are also exactly those whose gap is on the y axis. *)
Theorem madctl_bits_match_entry :
  forall o p,
    orientation_switch o = Some p ->
    Z.testbit (madctl p) 3 = true /\
    (Z.testbit (madctl p) 5 = true <->
     hor_res p = LCD_V_RES /\ ver_res p = LCD_H_RES) /\
    (Z.testbit (madctl p) 5 = true <-> x_gap p = 0 /\ y_gap p = 35) /\
    0 <= madctl p < 256.
Proof.
  intros o p; unfold orientation_switch.
  repeat match goal with
         | |- context [if ?b then _ else _] => destruct b
         end;
    intros E; inversion E; subst;
    cbn [madctl hor_res ver_res x_gap y_gap];
    unfold LCD_H_RES, LCD_V_RES;
    (split; [reflexivity |]);
    repeat split; intros; try reflexivity; try lia;
    repeat match goal with
           | H : _ /\ _ |- _ => destruct H
           end;
    try discriminate.
Qed.

Lemma madctl_bits_match_entry_witness :
  orientation_switch DISPLAY_ORIENTATION_270
  = Some {| madctl := 0xA8; hor_res := LCD_V_RES; ver_res := LCD_H_RES;
            x_gap := 0; y_gap := 35 |} /\
  Z.testbit 0xA8 3 = true /\ Z.testbit 0xA8 5 = true.
Proof.
  split; [reflexivity |].
  destruct (madctl_bits_match_entry DISPLAY_ORIENTATION_270 _ eq_refl)
    as (H3 & H5 & _).
  split; [exact H3 |].
  apply H5; split; reflexivity.
Defined.

(** ** Buffers: allocation and release *)

Lemma live_buffers_app heap before e1 e2 :
  live_buffers heap before (e1 ++ e2)
  = live_buffers heap before e1 + live_buffers heap (before ++ e1) e2.
Proof.
  revert before; induction e1 as [| c e1 IH]; intros before.
  - now rewrite app_nil_r.
  - cbn [app live_buffers]; rewrite IH, <- app_assoc; cbn [app]; lia.
Qed.

Lemma live_buffers_tx_param heap before cmds :
  (forall c, In c cmds ->
             exists op params, c = esp_lcd_panel_io_tx_param op params) ->
  live_buffers heap before cmds = 0.
Proof.
  revert before; induction cmds as [| c cmds IH]; intros before H;
    [reflexivity |].
  cbn [live_buffers]; rewrite IH by (intros; apply H; now right).
  destruct (H c (or_introl eq_refl)) as (op & ps & ->); reflexivity.
Qed.

Section HeapEffects.

Variable bus : list call -> call -> esp_err_t.
Variable heap : list call -> Z -> bool.

Lemma heap_effect_ret {A} (a : A) (delta : A -> Z) :
  delta a = 0 -> heap_effect heap (ret a) delta.
Proof.
  intros H st; exists []; cbn [ret fst snd live_buffers].
  now rewrite app_nil_r.
Qed.

Lemma heap_effect_bind {A B} (m : M A) (k : A -> M B) f (delta : B -> Z) :
  heap_effect heap m f ->
  (forall a, heap_effect heap (k a) (fun b => delta b - f a)) ->
  heap_effect heap (bind m k) delta.
Proof.
  intros Hm Hk st; unfold bind.
  destruct (Hm st) as (e1 & T1 & L1).
  destruct (m st) as [a st1]; cbn [fst snd] in *.
  destruct (Hk a st1) as (e2 & T2 & L2).
  exists (e1 ++ e2); split.
  - now rewrite T2, T1, app_assoc.
  - rewrite live_buffers_app, L1, <- T1, L2; lia.
Qed.

Lemma heap_effect_read {A} (body : state -> M A) (delta : A -> Z) :
  (forall st0, heap_effect heap (body st0) delta) ->
  heap_effect heap (fun st => body st st) delta.
Proof. intros H st; exact (H st st). Qed.

Lemma heap_effect_call {A} (c : call) (result : state -> A) (delta : A -> Z) :
  (forall st, live_buffers heap (trace st) [c] = delta (result st)) ->
  heap_effect heap (fun st => (result st, record_call c st)) delta.
Proof.
  intros H st; exists [c]; cbn [fst snd record_call trace]; auto.
Qed.

Lemma heap_effect_extern c delta :
  (forall size, c <> heap_caps_malloc size) -> c <> free ->
  (forall r, delta r = 0) ->
  heap_effect heap (extern bus c) delta.
Proof.
  intros Hm Hf Hd; unfold extern; apply heap_effect_call.
  intros st; rewrite Hd; cbn [live_buffers].
  destruct c; try reflexivity; [now elim (Hm size) | now elim Hf].
Qed.

Lemma heap_effect_notify c delta :
  (forall size, c <> heap_caps_malloc size) -> c <> free ->
  delta tt = 0 ->
  heap_effect heap (notify c) delta.
Proof.
  intros Hm Hf Hd; unfold notify; apply heap_effect_call.
  intros st; rewrite Hd; cbn [live_buffers].
  destruct c; try reflexivity; [now elim (Hm size) | now elim Hf].
Qed.

Lemma heap_effect_free delta :
  delta tt = -1 -> heap_effect heap (notify free) delta.
Proof.
  intros Hd; unfold notify; apply heap_effect_call.
  intros st; rewrite Hd; reflexivity.
Qed.

Lemma heap_effect_malloc size delta :
  delta true = 1 -> delta false = 0 ->
  heap_effect heap (malloc heap size) delta.
Proof.
  intros Ht Hf; unfold malloc; apply heap_effect_call.
  intros st; cbn [live_buffers].
  destruct (heap (trace st) size); [rewrite Ht | rewrite Hf]; reflexivity.
Qed.

Lemma heap_effect_set_draw_area x_start x_end y_start y_end delta :
  (forall r, delta r = 0) ->
  heap_effect heap (set_draw_area bus x_start x_end y_start y_end) delta.
Proof.
  intros Hd st.
  destruct (set_draw_area_trace bus x_start x_end y_start y_end st)
    as (cmds & T & Hc).
  exists cmds; split; [exact T |].
  rewrite Hd; now apply live_buffers_tx_param.
Qed.

(** Steps through a sequence of calls whose effect on the heap is known. *)
Ltac heap_effect_step :=
  lazymatch goal with
  | |- heap_effect _ (ret _) _ => apply heap_effect_ret; cbv beta; lia
  | |- heap_effect _ (notify free) _ => apply heap_effect_free; cbv beta; lia
  | |- heap_effect _ (notify _) _ =>
      apply heap_effect_notify; [discriminate | discriminate | cbv beta; lia]
  | |- heap_effect _ (bind (notify free) _) _ =>
      apply (heap_effect_bind _ _ (fun _ => -1));
      [apply heap_effect_free; reflexivity | intros ?]
  | |- heap_effect _ (bind (notify _) _) _ =>
      apply (heap_effect_bind _ _ (fun _ => 0));
      [apply heap_effect_notify; [discriminate | discriminate | reflexivity]
      | intros ?]
  | |- heap_effect _ (bind (extern _ _) _) _ =>
      apply (heap_effect_bind _ _ (fun _ => 0));
      [apply heap_effect_extern; [discriminate | discriminate | reflexivity]
      | intros ?]
  | |- heap_effect _ (bind (set_draw_area _ _ _ _ _) _) _ =>
      apply (heap_effect_bind _ _ (fun _ => 0));
      [apply heap_effect_set_draw_area; reflexivity | intros ?]
  | |- heap_effect _ (bind (malloc _ _) _) _ =>
      apply (heap_effect_bind _ _ (fun b : bool => if b then 1 else 0));
      [apply heap_effect_malloc; reflexivity | intros [|]]
  | |- heap_effect _ (if ?b then _ else _) _ => destruct b
  end.

Lemma heap_effect_clear_screen color delta :
  (forall r, delta r = 0) ->
  heap_effect heap (clear_screen bus heap color) delta.
Proof.
  intros Hd; unfold clear_screen.
  apply (heap_effect_read
           (fun st0 =>
              let hor_res := if is_portrait (current_orientation st0)
                             then LCD_H_RES else LCD_V_RES in
              let ver_res := if is_portrait (current_orientation st0)
                             then LCD_V_RES else LCD_H_RES in
              _)).
  intros st0; cbv zeta.
  heap_effect_step; cbn [negb]; cbv beta iota.
  - heap_effect_step. heap_effect_step.
    + heap_effect_step. apply heap_effect_ret; rewrite Hd; lia.
    + heap_effect_step. heap_effect_step. heap_effect_step.
      apply heap_effect_ret; rewrite Hd; lia.
  - apply heap_effect_ret; rewrite Hd; lia.
Qed.

Lemma heap_effect_unit (m : M unit) (d d' : unit -> Z) :
  d tt = d' tt -> heap_effect heap m d -> heap_effect heap m d'.
Proof.
  intros E H st; destruct (H st) as (e & T & L).
  exists e; split; [exact T |].
  rewrite L; destruct (fst (m st)); exact E.
Qed.

Lemma heap_effect_state_write (f : state -> state) delta :
  (forall st, trace (f st) = trace st) -> delta tt = 0 ->
  heap_effect heap (fun st => (tt, f st)) delta.
Proof.
  intros Hf Hd st; exists []; cbn [fst snd live_buffers].
  now rewrite Hf, app_nil_r.
Qed.

Lemma heap_effect_update_lvgl_resolution orientation p delta :
  delta tt = 0 ->
  heap_effect heap (update_lvgl_resolution orientation p) delta.
Proof.
  intros Hd st; unfold update_lvgl_resolution, notify.
  destruct (lvgl_disp st); cbn [fst snd record_call set_lvgl_disp trace].
  - eexists [_]; split; [reflexivity |].
    cbn [live_buffers]; rewrite Hd; reflexivity.
  - exists []; cbn [live_buffers]; now rewrite app_nil_r.
Qed.

Lemma heap_effect_set_display_orientation orientation delta :
  (forall r, delta r = 0) ->
  heap_effect heap (set_display_orientation bus heap orientation) delta.
Proof.
  intros Hd; unfold set_display_orientation.
  destruct (orientation_switch orientation) as [p |];
    [| apply heap_effect_ret; apply Hd].
  heap_effect_step. heap_effect_step; [apply heap_effect_ret; rewrite Hd; lia |].
  heap_effect_step. heap_effect_step; [apply heap_effect_ret; rewrite Hd; lia |].
  apply (heap_effect_bind _ _ (fun _ => 0));
    [apply heap_effect_state_write; reflexivity | intros ?].
  apply (heap_effect_bind _ _ (fun _ => 0));
    [apply heap_effect_update_lvgl_resolution; reflexivity | intros ?].
  apply (heap_effect_bind _ _ (fun _ => 0));
    [apply heap_effect_clear_screen; reflexivity | intros r].
  destruct (failed r); apply heap_effect_ret; rewrite Hd; lia.
Qed.

Lemma heap_effect_lvgl_flush_cb area color_p delta :
  delta tt = 0 ->
  heap_effect heap (lvgl_flush_cb bus area color_p) delta.
Proof.
  intros Hd; unfold lvgl_flush_cb; cbv zeta.
  heap_effect_step. heap_effect_step; [heap_effect_step |].
  heap_effect_step. heap_effect_step; [heap_effect_step |].
  heap_effect_step. heap_effect_step.
Qed.

Lemma heap_effect_send_init_cmds cmds delta :
  delta tt = 0 ->
  heap_effect heap (send_init_cmds bus cmds) delta.
Proof.
  intros Hd; induction cmds as [| c rest IH]; cbn [send_init_cmds].
  - heap_effect_step.
  - heap_effect_step; [| heap_effect_step].
    heap_effect_step.
    apply (heap_effect_bind _ _ (fun _ => 0)).
    + heap_effect_step; heap_effect_step.
    + intros ?; apply (heap_effect_unit _ delta); [cbv beta; lia | exact IH].
Qed.

Lemma heap_effect_init_display delta :
  delta tt = 0 -> heap_effect heap (init_display bus heap) delta.
Proof.
  intros Hd; unfold init_display.
  apply (heap_effect_bind _ _ (fun _ => 0));
    [apply heap_effect_send_init_cmds; reflexivity | intros ?].
  apply (heap_effect_bind _ _ (fun _ => 0));
    [apply heap_effect_set_display_orientation; reflexivity | intros ?].
  heap_effect_step.
Qed.

Lemma heap_effect_fill_colors colors delta :
  delta tt = 0 -> heap_effect heap (fill_colors bus heap colors) delta.
Proof.
  intros Hd; induction colors as [| color rest IH]; cbn [fill_colors].
  - heap_effect_step.
  - apply (heap_effect_bind _ _ (fun _ => 0));
      [apply heap_effect_clear_screen; reflexivity | intros ?].
    heap_effect_step.
    apply (heap_effect_unit _ delta); [cbv beta; lia | exact IH].
Qed.

Lemma heap_effect_test_fill_screen delta :
  delta tt = 0 -> heap_effect heap (test_fill_screen bus heap) delta.
Proof.
  intros Hd; unfold test_fill_screen.
  apply (heap_effect_bind _ _ (fun _ => 0));
    [apply heap_effect_fill_colors; reflexivity | intros ?].
  apply (heap_effect_read
           (fun st0 =>
              let hor_res := if is_portrait (current_orientation st0)
                             then LCD_H_RES else LCD_V_RES in
              let ver_res := if is_portrait (current_orientation st0)
                             then LCD_V_RES else LCD_H_RES in
              _)).
  intros st0; cbv zeta.
  heap_effect_step; cbn [negb]; cbv beta iota.
  - heap_effect_step. heap_effect_step; [heap_effect_step |].
    heap_effect_step. heap_effect_step. heap_effect_step. heap_effect_step.
  - heap_effect_step.
Qed.

Lemma heap_effect_run_operation op st :
  exists added,
    trace (run_operation bus heap op st) = trace st ++ added /\
    live_buffers heap (trace st) added = 0.
Proof.
  destruct op as [| | o | xs xe ys ye | color | | area color_p];
    cbn [run_operation].
  - exact (heap_effect_init_display (fun _ => 0) eq_refl st).
  - exists []; cbn [init_lvgl snd set_lvgl_disp trace live_buffers].
    now rewrite app_nil_r.
  - exact (heap_effect_set_display_orientation o (fun _ => 0)
             (fun _ => eq_refl) st).
  - exact (heap_effect_set_draw_area xs xe ys ye (fun _ => 0)
             (fun _ => eq_refl) st).
  - exact (heap_effect_clear_screen color (fun _ => 0) (fun _ => eq_refl) st).
  - exact (heap_effect_test_fill_screen (fun _ => 0) eq_refl st).
  - exact (heap_effect_lvgl_flush_cb area color_p (fun _ => 0) eq_refl st).
Qed.

(** X7. No buffer outlives an operation: over every sequence of driver
    operations, from every state and for every behaviour of the bus and of
    the allocator, the calls added release as many buffers as
    [heap_caps_malloc] delivered (a refused allocation is not released). *)
Theorem operations_release_buffers :
  forall ops st,
    exists added,
      trace (run_operations bus heap ops st) = trace st ++ added /\
      live_buffers heap (trace st) added = 0.
Proof.
  induction ops as [| op ops IH]; intros st; cbn [run_operations fold_left].
  - exists []; cbn [live_buffers]; now rewrite app_nil_r.
  - destruct (heap_effect_run_operation op st) as (e1 & T1 & L1).
    destruct (IH (run_operation bus heap op st)) as (e2 & T2 & L2).
    exists (e1 ++ e2); split.
    + unfold run_operations in T2; rewrite T2, T1; now rewrite app_assoc.
    + rewrite live_buffers_app, L1, <- T1, L2; reflexivity.
Qed.

End HeapEffects.

Example live_buffers_counts :
  live_buffers heap_ok [] [heap_caps_malloc 8] = 1 /\
  live_buffers (fun _ _ => false) [] [heap_caps_malloc 8] = 0 /\
  live_buffers heap_ok [] [heap_caps_malloc 8; vTaskDelay 1; free] = 0.
Proof. repeat split. Qed.

(** ** What an operation can add to the trace *)

Section AddedCalls.

Variable bus : list call -> call -> esp_err_t.
Variable heap : list call -> Z -> bool.
Variable P : call -> Prop.

Lemma adds_only_ret {A} (a : A) : adds_only P (ret a).
Proof. intros st; exists []; cbn [ret snd]; now rewrite app_nil_r. Qed.

Lemma adds_only_bind {A B} (m : M A) (k : A -> M B) :
  adds_only P m -> (forall a, adds_only P (k a)) -> adds_only P (bind m k).
Proof.
  intros Hm Hk st; unfold bind.
  destruct (Hm st) as (e1 & T1 & F1).
  destruct (m st) as [a st1]; cbn [snd] in *.
  destruct (Hk a st1) as (e2 & T2 & F2).
  exists (e1 ++ e2); split.
  - now rewrite T2, T1, app_assoc.
  - apply Forall_app; split; assumption.
Qed.

Lemma adds_only_read {A} (body : state -> M A) :
  (forall st0, adds_only P (body st0)) -> adds_only P (fun st => body st st).
Proof. intros H st; exact (H st st). Qed.

Lemma adds_only_call {A} (c : call) (result : state -> A) :
  P c -> adds_only P (fun st => (result st, record_call c st)).
Proof.
  intros Hc st; exists [c]; cbn [snd record_call trace]; split;
    [reflexivity | now constructor].
Qed.

Lemma adds_only_set_draw_area x_start x_end y_start y_end :
  (forall op params, P (esp_lcd_panel_io_tx_param op params)) ->
  adds_only P (set_draw_area bus x_start x_end y_start y_end).
Proof.
  intros HP st.
  destruct (set_draw_area_trace bus x_start x_end y_start y_end st)
    as (cmds & T & Hc).
  exists cmds; split; [exact T |].
  apply Forall_forall; intros c Hin.
  destruct (Hc c Hin) as (op & ps & ->); apply HP.
Qed.

End AddedCalls.

(** One step through a sequence of calls; [solve_call] shows that a call
    satisfies the predicate. *)
Ltac adds_only_step solve_call :=
  lazymatch goal with
  | |- adds_only _ (ret _) => apply adds_only_ret
  | |- adds_only _ (bind _ _) => apply adds_only_bind; [| intros ?]
  | |- adds_only _ (if ?b then _ else _) => destruct b
  | |- adds_only _ (extern _ _) =>
      unfold extern; apply adds_only_call; solve_call
  | |- adds_only _ (notify _) =>
      unfold notify; apply adds_only_call; solve_call
  | |- adds_only _ (malloc _ _) =>
      unfold malloc; apply adds_only_call; solve_call
  | |- adds_only _ (set_draw_area _ _ _ _ _) =>
      apply adds_only_set_draw_area; solve_call
  end.

Section DrawingCalls.

Variable bus : list call -> call -> esp_err_t.
Variable heap : list call -> Z -> bool.
Variable P : call -> Prop.

(** The calls of the drawing path: commands, pixel transfers, the heap and
    delays. *)
Hypothesis P_tx_param : forall op params, P (esp_lcd_panel_io_tx_param op params).
Hypothesis P_draw_bitmap :
  forall xs ys xe ye data, P (esp_lcd_panel_draw_bitmap xs ys xe ye data).
Hypothesis P_tx_color : forall op data, P (esp_lcd_panel_io_tx_color op data).
Hypothesis P_malloc : forall size, P (heap_caps_malloc size).
Hypothesis P_free : P free.
Hypothesis P_delay : forall ms, P (vTaskDelay ms).

Lemma adds_only_clear_screen color :
  adds_only P (clear_screen bus heap color).
Proof.
  unfold clear_screen.
  apply (adds_only_read _
           (fun st0 =>
              let hor_res := if is_portrait (current_orientation st0)
                             then LCD_H_RES else LCD_V_RES in
              let ver_res := if is_portrait (current_orientation st0)
                             then LCD_V_RES else LCD_H_RES in
              _)).
  intros st0; cbv zeta; repeat adds_only_step auto.
Qed.

Lemma adds_only_fill_colors colors :
  adds_only P (fill_colors bus heap colors).
Proof.
  induction colors as [| color rest IH]; cbn [fill_colors].
  - adds_only_step auto.
  - adds_only_step auto; [apply adds_only_clear_screen |].
    adds_only_step auto; [adds_only_step auto | exact IH].
Qed.

Lemma adds_only_test_fill_screen :
  adds_only P (test_fill_screen bus heap).
Proof.
  unfold test_fill_screen.
  adds_only_step auto; [apply adds_only_fill_colors |].
  apply (adds_only_read _
           (fun st0 =>
              let hor_res := if is_portrait (current_orientation st0)
                             then LCD_H_RES else LCD_V_RES in
              let ver_res := if is_portrait (current_orientation st0)
                             then LCD_V_RES else LCD_H_RES in
              _)).
  intros st0; cbv zeta; repeat adds_only_step auto.
Qed.

Lemma adds_only_send_init_cmds cmds :
  adds_only P (send_init_cmds bus cmds).
Proof.
  induction cmds as [| c rest IH]; cbn [send_init_cmds].
  - adds_only_step auto.
  - adds_only_step auto; [| adds_only_step auto].
    adds_only_step auto; [adds_only_step auto |].
    adds_only_step auto; [repeat adds_only_step auto | exact IH].
Qed.

End DrawingCalls.

(** ** Screen clears *)

Lemma clear_screen_size o :
  let hor_res := if is_portrait o then LCD_H_RES else LCD_V_RES in
  let ver_res := if is_portrait o then LCD_V_RES else LCD_H_RES in
  mul_int hor_res ver_res = 54400 /\
  (mul_int hor_res ver_res * 2) mod 2 ^ 32 = 108800.
Proof. destruct (is_portrait o); split; reflexivity. Qed.

Lemma added_by_trace {A} (m : M A) st added :
  trace (snd (m st)) = trace st ++ added -> added_by m st = added.
Proof. intros T; unfold added_by; rewrite T; apply skipn_length_app. Qed.

Lemma recovered_later bus st st' later :
  trace st' = trace st ++ later -> recovered bus st -> recovered bus st'.
Proof.
  intros T H more c; rewrite T, <- app_assoc; apply H.
Qed.

Section ScreenClear.

Variable bus : list call -> call -> esp_err_t.
Variable heap : list call -> Z -> bool.

(** The exit paths of [clear_screen], with the calls of its window. *)
Lemma clear_screen_paths color st :
  let hor_res :=
    if is_portrait (current_orientation st) then LCD_H_RES else LCD_V_RES in
  let ver_res :=
    if is_portrait (current_orientation st) then LCD_V_RES else LCD_H_RES in
  let st0 := record_call (heap_caps_malloc 108800) st in
  let draw :=
    esp_lcd_panel_draw_bitmap 0 0 hor_res ver_res (fill_buffer 54400 color) in
  (heap (trace st) 108800 = false /\
   clear_screen bus heap color st = (ESP_ERR_NO_MEM, st0)) \/
  (heap (trace st) 108800 = true /\
   exists r st1,
     set_draw_area bus 0 (sub_int hor_res 1) 0 (sub_int ver_res 1) st0
     = (r, st1) /\
     ((r <> ESP_OK /\
       clear_screen bus heap color st = (r, record_call free st1)) \/
      (r = ESP_OK /\
       clear_screen bus heap color st
       = (bus (trace st1) draw,
          record_call free
            (record_call (esp_lcd_panel_io_tx_color (-1) [])
               (record_call draw st1)))))).
Proof.
  cbv zeta; unfold clear_screen, bind, malloc.
  destruct (clear_screen_size (current_orientation st)) as [-> ->].
  destruct (heap (trace st) 108800); cbn [negb]; [right | left; auto].
  split; [reflexivity |].
  destruct (set_draw_area bus 0 _ 0 _ _) as [r st1].
  exists r, st1; split; [reflexivity |].
  destruct (failed r) eqn:F;
    [apply failed_true in F; left | apply failed_false in F; right];
    (split; [exact F | reflexivity]).
Qed.

(** X8. The exit paths of [clear_screen] seen from outside.  A refused
    allocation returns [ESP_ERR_NO_MEM] with nothing sent to the panel and
    nothing released.  After a successful allocation the last call is the
    [free] of the buffer, on every path, and it is the only release.  A
    bitmap transfer that was started is always followed by the end of the
    colour transfer and the release, also when the transfer is refused, and
    its result is the value returned. *)
Theorem clear_screen_exit_paths :
  forall color st,
    let added := added_by (clear_screen bus heap color) st in
    let r := fst (clear_screen bus heap color st) in
    (heap (trace st) 108800 = false ->
     r = ESP_ERR_NO_MEM /\ added = [heap_caps_malloc 108800]) /\
    (heap (trace st) 108800 = true ->
     exists calls,
       added = heap_caps_malloc 108800 :: calls ++ [free] /\
       ~ In free calls /\
       forall size, ~ In (heap_caps_malloc size) calls) /\
    (forall xs ys xe ye data,
        In (esp_lcd_panel_draw_bitmap xs ys xe ye data) added ->
        exists before,
          added = before ++ [ esp_lcd_panel_draw_bitmap xs ys xe ye data;
                              esp_lcd_panel_io_tx_color (-1) [];
                              free ] /\
          r = bus (trace st ++ before)
                  (esp_lcd_panel_draw_bitmap xs ys xe ye data)).
Proof.
  intros color st added r; subst added r.
  pose proof (clear_screen_paths color st) as Hp; cbv zeta in Hp.
  set (st0 := record_call (heap_caps_malloc 108800) st) in *.
  destruct Hp as [(Hh & E) | (Hh & r & st1 & S & Hr)].
  - (* allocation refused *)
    assert (A : added_by (clear_screen bus heap color) st
                = [heap_caps_malloc 108800])
      by (apply added_by_trace; rewrite E; reflexivity).
    rewrite A, E; cbn [fst]; repeat split; try congruence.
    intros xs ys xe ye data [Hin | []]; discriminate.
  - destruct (set_draw_area_trace bus 0
                (sub_int (if is_portrait (current_orientation st)
                          then LCD_H_RES else LCD_V_RES) 1) 0
                (sub_int (if is_portrait (current_orientation st)
                          then LCD_V_RES else LCD_H_RES) 1) st0)
      as (cmds & T & Hc).
    rewrite S in T; cbn [snd] in T.
    assert (T1 : trace st1 = trace st ++ heap_caps_malloc 108800 :: cmds)
      by (rewrite T; subst st0; cbn [record_call trace];
          now rewrite <- app_assoc).
    assert (Nf : ~ In free cmds)
      by (intros Hin; destruct (Hc _ Hin) as (? & ? & ?); discriminate).
    assert (Nm : forall size, ~ In (heap_caps_malloc size) cmds)
      by (intros size Hin; destruct (Hc _ Hin) as (? & ? & ?); discriminate).
    assert (Nd : forall xs ys xe ye data,
               ~ In (esp_lcd_panel_draw_bitmap xs ys xe ye data) cmds)
      by (intros ? ? ? ? ? Hin; destruct (Hc _ Hin) as (? & ? & ?);
          discriminate).
    destruct Hr as [(Hr & E) | (Hr & E)].
    + (* window refused *)
      assert (A : added_by (clear_screen bus heap color) st
                  = heap_caps_malloc 108800 :: cmds ++ [free]).
      { apply added_by_trace; rewrite E; cbn [snd record_call trace].
        rewrite T1, <- app_assoc; reflexivity. }
      rewrite A, E; cbn [fst]; repeat split; try congruence.
      * intros _; exists cmds; auto.
      * intros xs ys xe ye data [Hin | Hin]; [discriminate |].
        apply in_app_or in Hin; destruct Hin as [Hin | [Hin | []]];
          [now elim (Nd _ _ _ _ _ Hin) | discriminate].
    + (* transfer started *)
      set (draw := esp_lcd_panel_draw_bitmap 0 0 _ _ _) in *.
      assert (A : added_by (clear_screen bus heap color) st
                  = heap_caps_malloc 108800 :: cmds ++
                    [draw; esp_lcd_panel_io_tx_color (-1) []; free]).
      { apply added_by_trace; rewrite E; cbn [snd record_call trace].
        rewrite T1, <- !app_assoc; reflexivity. }
      rewrite A, E; cbn [fst]; repeat split; try congruence.
      * intros _.
        exists (cmds ++ [draw; esp_lcd_panel_io_tx_color (-1) []]).
        rewrite <- app_assoc; cbn [app]; split; [reflexivity |].
        split.
        -- intros Hin; apply in_app_or in Hin.
           destruct Hin as [Hin | [Hin | [Hin | []]]];
             [contradiction | discriminate | discriminate].
        -- intros size Hin; apply in_app_or in Hin.
           destruct Hin as [Hin | [Hin | [Hin | []]]];
             [now elim (Nm size) | discriminate | discriminate].
      * intros xs ys xe ye data [Hin | Hin]; [discriminate |].
        apply in_app_or in Hin; destruct Hin as [Hin | Hin];
          [now elim (Nd _ _ _ _ _ Hin) |].
        destruct Hin as [Hin | [Hin | [Hin | []]]]; try discriminate.
        exists (heap_caps_malloc 108800 :: cmds); rewrite <- Hin.
        split; [reflexivity | now rewrite T1].
Qed.

Lemma translate_full_surface o :
  valid_orientation o ->
  translate o 0 (sub_int (if is_portrait o then LCD_H_RES else LCD_V_RES) 1)
              0 (sub_int (if is_portrait o then LCD_V_RES else LCD_H_RES) 1)
  = Some {| col_start := 0; col_end := 169; row_start := 0; row_end := 319 |}.
Proof. intros Ho; orientation_cases Ho; reflexivity. Qed.

Lemma clear_screen_recovered color st :
  valid_orientation (current_orientation st) ->
  heap (trace st) 108800 = true ->
  recovered bus st ->
  fst (clear_screen bus heap color st) = ESP_OK /\
  trace (snd (clear_screen bus heap color st))
  = trace st ++
    full_panel_calls (current_orientation st) (fill_buffer 54400 color).
Proof.
  intros Hv Hh Hrec.
  pose proof (clear_screen_paths color st) as Hp; cbv zeta in Hp.
  set (st0 := record_call (heap_caps_malloc 108800) st) in *.
  destruct Hp as [(Hh' & _) | (_ & r & st1 & S & Hr)]; [congruence |].
  assert (Hrec0 : recovered bus st0)
    by (apply (recovered_later bus st st0 [heap_caps_malloc 108800]);
        [reflexivity | exact Hrec]).
  destruct (set_draw_area_recovered bus 0
              (sub_int (if is_portrait (current_orientation st)
                        then LCD_H_RES else LCD_V_RES) 1) 0
              (sub_int (if is_portrait (current_orientation st)
                        then LCD_V_RES else LCD_H_RES) 1) st0 Hv Hrec0)
    as (w & st1' & T & S' & Tr & _).
  rewrite S in S'; inversion S'; subst r st1'; clear S'.
  change (current_orientation st0) with (current_orientation st) in T.
  rewrite (translate_full_surface _ Hv) in T; inversion T; subst w; clear T.
  destruct Hr as [(Hr & _) | (_ & E)]; [now elim Hr |].
  assert (Hd : forall c, bus (trace st1) c = ESP_OK).
  { intros c; rewrite Tr; subst st0; cbn [record_call trace].
    rewrite <- app_assoc; apply Hrec. }
  rewrite Hd in E.
  split; [now rewrite E |].
  rewrite E; cbn [snd record_call trace].
  rewrite Tr; subst st0; cbn [record_call trace].
  rewrite <- !app_assoc; cbn [app].
  unfold full_panel_calls, LCD_H_RES, LCD_V_RES; reflexivity.
Qed.

(** X9. A screen clear covers the whole panel in every orientation: with the
    buffer allocated and the bus accepting the calls, [clear_screen]
    returns [ESP_OK] after programming columns 0..169 and rows 0..319,
    transferring one buffer of 320 x 170 = 54400 pixels that all hold the
    colour, ending the colour transfer and releasing the buffer; the
    orientation state is untouched. *)
Theorem clear_screen_full_surface :
  forall color st,
    valid_orientation (current_orientation st) ->
    heap (trace st) 108800 = true ->
    recovered bus st ->
    fst (clear_screen bus heap color st) = ESP_OK /\
    added_by (clear_screen bus heap color) st
    = [ heap_caps_malloc 108800;
        esp_lcd_panel_io_tx_param 0x2A [0; 0; 0; 169];
        esp_lcd_panel_io_tx_param 0x2B [0; 0; 1; 63];
        esp_lcd_panel_io_tx_param 0x2C [];
        esp_lcd_panel_draw_bitmap 0 0
          (if is_portrait (current_orientation st) then 170 else 320)
          (if is_portrait (current_orientation st) then 320 else 170)
          (fill_buffer 54400 color);
        esp_lcd_panel_io_tx_color (-1) [];
        free ] /\
    length (fill_buffer 54400 color) = Z.to_nat 54400 /\
    (forall pixel, In pixel (fill_buffer 54400 color) -> pixel = color) /\
    same_orientation_state st (snd (clear_screen bus heap color st)).
Proof.
  intros color st Hv Hh Hrec.
  destruct (clear_screen_recovered color st Hv Hh Hrec) as [Hr T].
  split; [exact Hr |].
  split; [apply added_by_trace; exact T |].
  split; [apply repeat_length |].
  split; [intros pixel Hin; exact (repeat_spec _ _ _ Hin) |].
  apply clear_screen_frame.
Qed.

End ScreenClear.

Lemma clear_screen_full_surface_witness :
  (valid_orientation (current_orientation registered_state) /\
   heap_ok (trace registered_state) 108800 = true /\
   recovered bus_ok registered_state) /\
  fst (clear_screen bus_ok heap_ok 0xF800 registered_state) = ESP_OK.
Proof.
  assert (Hv : valid_orientation (current_orientation registered_state))
    by (right; left; reflexivity).
  assert (Hh : heap_ok (trace registered_state) 108800 = true)
    by reflexivity.
  assert (Hr : recovered bus_ok registered_state)
    by (intros later c; reflexivity).
  split; [repeat split; assumption |].
  exact (proj1 (clear_screen_full_surface bus_ok heap_ok 0xF800
                  registered_state Hv Hh Hr)).
Defined.

(** ** Orientation changes *)

Section OrientationCalls.

Variable bus : list call -> call -> esp_err_t.
Variable heap : list call -> Z -> bool.
Variable P : call -> Prop.

Hypothesis P_tx_param : forall op params, P (esp_lcd_panel_io_tx_param op params).
Hypothesis P_draw_bitmap :
  forall xs ys xe ye data, P (esp_lcd_panel_draw_bitmap xs ys xe ye data).
Hypothesis P_tx_color : forall op data, P (esp_lcd_panel_io_tx_color op data).
Hypothesis P_malloc : forall size, P (heap_caps_malloc size).
Hypothesis P_free : P free.
Hypothesis P_delay : forall ms, P (vTaskDelay ms).
Hypothesis P_set_gap : forall gx gy, P (esp_lcd_panel_set_gap gx gy).
Hypothesis P_set_rotation : forall rotation, P (lv_disp_set_rotation rotation).

Lemma adds_only_update_lvgl_resolution orientation p :
  adds_only P (update_lvgl_resolution orientation p).
Proof.
  intros st; unfold update_lvgl_resolution, notify.
  destruct (lvgl_disp st); cbn [snd record_call set_lvgl_disp trace].
  - eexists [_]; split; [reflexivity | constructor; auto].
  - exists []; split; [now rewrite app_nil_r | constructor].
Qed.

Lemma adds_only_set_display_orientation orientation :
  adds_only P (set_display_orientation bus heap orientation).
Proof.
  unfold set_display_orientation.
  destruct (orientation_switch orientation) as [p |];
    [| apply adds_only_ret].
  do 4 adds_only_step auto.
  - adds_only_step auto.
  - adds_only_step auto.
    + intros st; exists []; cbn [snd set_current_orientation trace].
      split; [now rewrite app_nil_r | constructor].
    + adds_only_step auto; [apply adds_only_update_lvgl_resolution |].
      adds_only_step auto; [now apply adds_only_clear_screen |].
      adds_only_step auto; adds_only_step auto.
Qed.

Lemma adds_only_init_display : adds_only P (init_display bus heap).
Proof.
  unfold init_display.
  adds_only_step auto; [now apply adds_only_send_init_cmds |].
  adds_only_step auto; [apply adds_only_set_display_orientation |].
  adds_only_step auto.
Qed.

End OrientationCalls.

Section OrientationChanges.

Variable bus : list call -> call -> esp_err_t.
Variable heap : list call -> Z -> bool.

(** Whatever it returns, [set_display_orientation] either leaves the
    orientation state as it was or stores the table entry of the requested
    orientation. *)
Lemma set_display_orientation_state orientation st :
  let st' := snd (set_display_orientation bus heap orientation st) in
  same_orientation_state st st' \/
  exists p,
    orientation_switch orientation = Some p /\
    madctl_result bus p st = ESP_OK /\ gap_result bus p st = ESP_OK /\
    current_orientation st' = orientation /\
    lvgl_disp st' = with_resolution p (lvgl_disp st).
Proof.
  pose proof (set_display_orientation_spec bus heap orientation st) as S.
  destruct (orientation_switch orientation) as [p |] eqn:Sw.
  - destruct (failed (madctl_result bus p st)) eqn:F1.
    { left; rewrite S; apply same_orientation_state_record. }
    destruct (failed (gap_result bus p st)) eqn:F2.
    { left; rewrite S; cbn [snd].
      eapply same_orientation_state_trans;
        apply same_orientation_state_record. }
    apply failed_false in F1, F2.
    right; exists p; destruct S as [So Sd]; auto.
  - left; rewrite S; apply same_orientation_state_refl.
Qed.

Lemma with_resolution_matches orientation p st st' :
  orientation_switch orientation = Some p ->
  current_orientation st' = orientation ->
  lvgl_disp st' = with_resolution p (lvgl_disp st) ->
  resolution_matches st'.
Proof.
  intros Sw Ho Hd; unfold resolution_matches; rewrite Hd, Ho.
  destruct (lvgl_disp st); cbn [with_resolution]; [| exact I].
  exists p; auto.
Qed.

(** X10. What [ESP_OK] from [set_display_orientation] guarantees: the value was
    one of the four orientations, the MADCTL and gap writes were accepted
    in that order as the first two calls, the orientation is stored, and a
    registered LVGL driver holds the matching resolution. *)
Theorem set_display_orientation_success :
  forall orientation st st',
    set_display_orientation bus heap orientation st = (ESP_OK, st') ->
    valid_orientation orientation /\
    current_orientation st' = orientation /\
    resolution_matches st' /\
    exists p rest,
      orientation_switch orientation = Some p /\
      madctl_result bus p st = ESP_OK /\
      gap_result bus p st = ESP_OK /\
      lvgl_disp st' = with_resolution p (lvgl_disp st) /\
      trace st' = trace st ++ madctl_command p :: gap_command p :: rest.
Proof.
  intros o st st' E.
  pose proof (set_display_orientation_unfold bus heap o st) as U.
  pose proof (set_display_orientation_spec bus heap o st) as S.
  rewrite E in U, S.
  destruct (orientation_switch o) as [p |] eqn:Sw; [| discriminate U].
  cbv zeta in U.
  destruct (failed (madctl_result bus p st)) eqn:F1.
  { inversion U as [[Hr Hst]]; apply failed_true in F1; congruence. }
  destruct (failed (gap_result bus p st)) eqn:F2.
  { inversion U as [[Hr Hst]]; apply failed_true in F2; congruence. }
  apply failed_false in F1, F2; cbn [snd] in S; destruct S as [So Sd].
  split; [apply valid_orientation_switch; congruence |].
  split; [exact So |].
  split; [exact (with_resolution_matches o p st st' Sw So Sd) |].
  set (st2 := set_current_orientation o _) in U.
  destruct (heap_effect_update_lvgl_resolution heap o p (fun _ => 0)
              eq_refl st2) as (e3 & T3 & _).
  destruct (update_lvgl_resolution o p st2) as [u st3]; cbn [snd] in T3.
  destruct (heap_effect_clear_screen bus heap 0 (fun _ => 0)
              (fun _ => eq_refl) st3) as (e4 & T4 & _).
  destruct (clear_screen bus heap 0 st3) as [r st4]; cbn [snd] in T4.
  assert (Hst : st' = st4) by (destruct (failed r); congruence).
  exists p, (e3 ++ e4); repeat split; try assumption.
  rewrite Hst, T4, T3; subst st2.
  cbn [set_current_orientation record_call trace].
  rewrite <- !app_assoc; reflexivity.
Qed.

(** X11. Applying the orientation the driver is already in changes nothing of
    the orientation state, whether the call succeeds or fails at any step:
    [current_orientation] stays, and a resolution that matched it stays.
    Every rectangle therefore translates as before. *)
Theorem set_display_orientation_same_orientation :
  forall orientation st,
    current_orientation st = orientation ->
    resolution_matches st ->
    let st' := snd (set_display_orientation bus heap orientation st) in
    same_orientation_state st st' /\
    forall x_start x_end y_start y_end,
      translate (current_orientation st') x_start x_end y_start y_end
      = translate (current_orientation st) x_start x_end y_start y_end.
Proof.
  intros o st Ho Hm st'.
  assert (Hs : same_orientation_state st st').
  { destruct (set_display_orientation_state o st)
      as [Hs | (p & Sw & _ & _ & So & Sd)]; [exact Hs |].
    fold st' in So, Sd; split; [congruence |].
    rewrite Sd; unfold resolution_matches in Hm.
    destruct (lvgl_disp st) as [d |]; cbn [with_resolution]; [| reflexivity].
    destruct Hm as (q & Hq & ->); rewrite Ho, Sw in Hq.
    now inversion Hq. }
  split; [exact Hs |].
  intros; destruct Hs as [-> _]; reflexivity.
Qed.

(** X12. Before the LVGL driver is registered ([lvgl_disp == NULL]) an
    orientation change makes no LVGL call and leaves [lvgl_disp] at
    [NULL], on every path. *)
Theorem set_display_orientation_unregistered :
  forall orientation st,
    lvgl_disp st = None ->
    lvgl_disp (snd (set_display_orientation bus heap orientation st)) = None /\
    forall c,
      In c (added_by (set_display_orientation bus heap orientation) st) ->
      ~ is_lvgl_call c.
Proof.
  intros o st Hn.
  split.
  { destruct (set_display_orientation_state o st)
      as [[_ Hd] | (p & _ & _ & _ & _ & Sd)].
    - now rewrite Hd.
    - now rewrite Sd, Hn. }
  set (Q := fun c : call => ~ is_lvgl_call c).
  assert (Qtx : forall op ps, Q (esp_lcd_panel_io_tx_param op ps))
    by (intros op ps [[x H] | H]; discriminate H).
  assert (Qgap : forall gx gy, Q (esp_lcd_panel_set_gap gx gy))
    by (intros gx gy [[x H] | H]; discriminate H).
  assert (Hclear : adds_only Q (clear_screen bus heap 0)).
  { apply adds_only_clear_screen; try exact Qtx;
      intros; intros [[x H] | H]; discriminate H. }
  assert (Hadd : exists added,
             trace (snd (set_display_orientation bus heap o st))
             = trace st ++ added /\ Forall Q added).
  { rewrite set_display_orientation_unfold.
    destruct (orientation_switch o) as [p |];
      [| exists []; split; [now rewrite app_nil_r | constructor]].
    cbv zeta.
    destruct (failed (madctl_result bus p st)).
    { eexists [_]; split; [reflexivity | constructor; [apply Qtx | constructor]]. }
    destruct (failed (gap_result bus p st)).
    { eexists [_; _]; cbn [snd record_call trace]; rewrite <- app_assoc.
      split; [reflexivity |].
      constructor; [apply Qtx | constructor; [apply Qgap | constructor]]. }
    unfold update_lvgl_resolution.
    cbn [set_current_orientation record_call lvgl_disp]; rewrite Hn.
    match goal with
    | |- context [clear_screen bus heap 0 ?s] => set (st3 := s)
    end.
    destruct (Hclear st3) as (e & T & F).
    destruct (clear_screen bus heap 0 st3) as [r st4]; cbn [snd] in T.
    exists (madctl_command p :: gap_command p :: e); split.
    - assert (Hst : snd (if failed r then (r, st4) else (ESP_OK, st4)) = st4)
        by (destruct (failed r); reflexivity).
      rewrite Hst, T; subst st3.
      cbn [set_current_orientation record_call trace].
      rewrite <- !app_assoc; reflexivity.
    - constructor; [apply Qtx | constructor; [apply Qgap | exact F]]. }
  destruct Hadd as (added & T & F).
  rewrite (added_by_trace _ _ _ T).
  intros c Hin; exact (proj1 (Forall_forall Q added) F c Hin).
Qed.

End OrientationChanges.

Lemma set_display_orientation_success_witness :
  fst (set_display_orientation bus_ok heap_ok DISPLAY_ORIENTATION_0
         registered_state) = ESP_OK /\
  current_orientation
    (snd (set_display_orientation bus_ok heap_ok DISPLAY_ORIENTATION_0
            registered_state)) = DISPLAY_ORIENTATION_0 /\
  resolution_matches
    (snd (set_display_orientation bus_ok heap_ok DISPLAY_ORIENTATION_0
            registered_state)).
Proof.
  assert (Hf : fst (set_display_orientation bus_ok heap_ok
                      DISPLAY_ORIENTATION_0 registered_state) = ESP_OK)
    by reflexivity.
  split; [exact Hf |].
  destruct (set_display_orientation_success bus_ok heap_ok
              DISPLAY_ORIENTATION_0 registered_state
              (snd (set_display_orientation bus_ok heap_ok
                      DISPLAY_ORIENTATION_0 registered_state))
              (eq_trans (surjective_pairing _)
                 (f_equal (fun r => (r, _)) Hf)))
    as (_ & Ho & Hm & _).
  split; assumption.
Defined.

Lemma set_display_orientation_same_orientation_witness :
  (current_orientation registered_state = DISPLAY_ORIENTATION_90 /\
   resolution_matches registered_state) /\
  same_orientation_state registered_state
    (snd (set_display_orientation (bus_refusing 0x2A) heap_ok
            DISPLAY_ORIENTATION_90 registered_state)).
Proof.
  assert (Ho : current_orientation registered_state = DISPLAY_ORIENTATION_90)
    by reflexivity.
  assert (Hm : resolution_matches registered_state)
    by (eexists; split; reflexivity).
  split; [split; assumption |].
  exact (proj1 (set_display_orientation_same_orientation
                  (bus_refusing 0x2A) heap_ok DISPLAY_ORIENTATION_90
                  registered_state Ho Hm)).
Defined.

Lemma set_display_orientation_unregistered_witness :
  lvgl_disp initial_state = None /\
  lvgl_disp (snd (set_display_orientation bus_ok heap_ok
                    DISPLAY_ORIENTATION_180 initial_state)) = None.
Proof.
  assert (Hn : lvgl_disp initial_state = None) by reflexivity.
  split; [exact Hn |].
  exact (proj1 (set_display_orientation_unregistered bus_ok heap_ok
                  DISPLAY_ORIENTATION_180 initial_state Hn)).
Defined.

(** ** Invariants over sequences of operations *)

Section Invariants.

Variable bus : list call -> call -> esp_err_t.
Variable heap : list call -> Z -> bool.

Lemma keeps_ret {A} (a : A) : keeps_orientation_state (ret a).
Proof. intros st; apply same_orientation_state_refl. Qed.

Lemma keeps_bind {A B} (m : M A) (k : A -> M B) :
  keeps_orientation_state m -> (forall a, keeps_orientation_state (k a)) ->
  keeps_orientation_state (bind m k).
Proof.
  intros Hm Hk st; unfold bind.
  pose proof (Hm st) as H1.
  destruct (m st) as [a st1]; cbn [snd] in *.
  eapply same_orientation_state_trans; [exact H1 | apply Hk].
Qed.

Lemma keeps_read {A} (body : state -> M A) :
  (forall st0, keeps_orientation_state (body st0)) ->
  keeps_orientation_state (fun st => body st st).
Proof. intros H st; exact (H st st). Qed.

Lemma keeps_call {A} (c : call) (result : state -> A) :
  keeps_orientation_state (fun st => (result st, record_call c st)).
Proof. intros st; apply same_orientation_state_record. Qed.

Lemma keeps_set_draw_area x_start x_end y_start y_end :
  keeps_orientation_state (set_draw_area bus x_start x_end y_start y_end).
Proof.
  intros st.
  destruct (set_draw_area bus x_start x_end y_start y_end st) as [r st'] eqn:E.
  exact (proj1 (set_draw_area_spec _ _ _ _ _ _ _ _ E)).
Qed.

Lemma keeps_clear_screen color :
  keeps_orientation_state (clear_screen bus heap color).
Proof. intros st; apply clear_screen_frame. Qed.

Lemma keeps_fill_colors colors :
  keeps_orientation_state (fill_colors bus heap colors).
Proof.
  induction colors as [| color rest IH]; cbn [fill_colors].
  - apply keeps_ret.
  - apply keeps_bind; [apply keeps_clear_screen | intros _].
    apply keeps_bind; [apply keeps_call | intros _; exact IH].
Qed.

Lemma keeps_test_fill_screen :
  keeps_orientation_state (test_fill_screen bus heap).
Proof.
  unfold test_fill_screen.
  apply keeps_bind; [apply keeps_fill_colors | intros _].
  apply (keeps_read
           (fun st0 =>
              let hor_res := if is_portrait (current_orientation st0)
                             then LCD_H_RES else LCD_V_RES in
              let ver_res := if is_portrait (current_orientation st0)
                             then LCD_V_RES else LCD_H_RES in
              _)).
  intros st0; cbv zeta.
  apply keeps_bind; [apply keeps_call | intros b].
  destruct (negb b); [apply keeps_ret |].
  apply keeps_bind; [apply keeps_set_draw_area | intros r].
  destruct (failed r); [apply keeps_call |].
  repeat (apply keeps_bind; [apply keeps_call | intros ?]).
  apply keeps_call.
Qed.

(** The orientation state after one operation: unchanged, or the table
    entry of a valid orientation, or (for [init_lvgl]) the registration
    with 320 x 170. *)
Lemma run_operation_orientation_state op st :
  let st' := run_operation bus heap op st in
  same_orientation_state st st' \/
  (exists o p,
      orientation_switch o = Some p /\
      current_orientation st' = o /\
      lvgl_disp st' = with_resolution p (lvgl_disp st)) \/
  (op = op_init_lvgl /\ current_orientation st' = current_orientation st).
Proof.
  destruct op as [| | o | xs xe ys ye | color | | area color_p];
    cbn [run_operation].
  - unfold init_display, bind.
    pose proof (send_init_cmds_frame bus lcd_st7789v st) as [Ho Hd].
    destruct (send_init_cmds bus lcd_st7789v st) as [u st1]; cbn [snd] in *.
    pose proof (set_display_orientation_state bus heap DISPLAY_ORIENTATION_90 st1) as Hs.
    destruct (set_display_orientation bus heap DISPLAY_ORIENTATION_90 st1)
      as [r st2]; cbn [snd ret] in *.
    destruct Hs as [[Ho' Hd'] | (p & Sw & _ & _ & So & Sd)].
    + left; split; congruence.
    + right; left; exists DISPLAY_ORIENTATION_90, p.
      split; [exact Sw |]; split; [exact So |]; now rewrite Sd, Hd.
  - right; right; split; reflexivity.
  - destruct (set_display_orientation_state bus heap o st)
      as [Hs | (p & Sw & _ & _ & So & Sd)]; [now left |].
    right; left; exists o, p; auto.
  - left; apply keeps_set_draw_area.
  - left; apply keeps_clear_screen.
  - left; apply keeps_test_fill_screen.
  - left; apply lvgl_flush_cb_frame.
Qed.

(** X13. The orientation stays one of the four values over every sequence of
    driver operations, for every behaviour of the bus and of the allocator,
    so that the [default] branch of [set_draw_area] is never taken: every
    rectangle has a window. *)
Theorem operations_keep_orientation_valid :
  forall ops st,
    valid_orientation (current_orientation st) ->
    valid_orientation (current_orientation (run_operations bus heap ops st)) /\
    forall x_start x_end y_start y_end,
      translate (current_orientation (run_operations bus heap ops st))
        x_start x_end y_start y_end <> None.
Proof.
  assert (H : forall ops st,
             valid_orientation (current_orientation st) ->
             valid_orientation
               (current_orientation (run_operations bus heap ops st))).
  { induction ops as [| op ops IH]; intros st Hv;
      cbn [run_operations fold_left]; [exact Hv |].
    apply IH.
    destruct (run_operation_orientation_state op st)
      as [[Ho _] | [(o & p & Sw & So & _) | (_ & Ho)]].
    - now rewrite Ho.
    - rewrite So; apply valid_orientation_switch; congruence.
    - now rewrite Ho. }
  intros ops st Hv; split; [now apply H |].
  intros; apply translate_valid; now apply H.
Qed.

(** X14. From the end of start-up on, the resolution of the LVGL driver always
    matches the current orientation (320 x 170 at 90 and 270 degrees,
    170 x 320 at 0 and 180), over every sequence of operations that does not
    register the driver again. *)
Theorem operations_keep_resolution_matching :
  forall ops st,
    resolution_matches st ->
    Forall (fun op => op <> op_init_lvgl) ops ->
    resolution_matches (run_operations bus heap ops st).
Proof.
  induction ops as [| op ops IH]; intros st Hm Hops;
    cbn [run_operations fold_left]; [exact Hm |].
  inversion Hops as [| ? ? Hop Hrest]; subst.
  apply IH; [| exact Hrest].
  destruct (run_operation_orientation_state op st)
    as [[Ho Hd] | [(o & p & Sw & So & Sd) | (Habs & _)]].
  - unfold resolution_matches in *; now rewrite Hd, Ho.
  - exact (with_resolution_matches o p st _ Sw So Sd).
  - contradiction.
Qed.

Lemma startup_resolution_matches :
  resolution_matches (snd (startup bus heap initial_state)).
Proof.
  destruct (init_display_orientation bus heap initial_state eq_refl)
    as [H90 _].
  unfold startup, bind, resolution_matches.
  destruct (init_display bus heap initial_state) as [u st1]; cbn [snd] in *.
  unfold init_lvgl; cbn [snd set_lvgl_disp current_orientation lvgl_disp].
  rewrite H90; eexists; split; reflexivity.
Qed.

End Invariants.

Lemma operations_keep_orientation_valid_witness :
  valid_orientation (current_orientation initial_state) /\
  valid_orientation
    (current_orientation
       (run_operations (bus_refusing 0x2B) heap_ok
          [op_init_display; op_init_lvgl; op_set_display_orientation 7;
           op_set_display_orientation DISPLAY_ORIENTATION_180;
           op_test_fill_screen]
          initial_state)).
Proof.
  assert (Hv : valid_orientation (current_orientation initial_state))
    by (right; left; reflexivity).
  split; [exact Hv |].
  exact (proj1 (operations_keep_orientation_valid (bus_refusing 0x2B) heap_ok
                  _ initial_state Hv)).
Defined.

Lemma operations_keep_resolution_matching_witness :
  (resolution_matches registered_state /\
   Forall (fun op => op <> op_init_lvgl)
     [op_set_display_orientation DISPLAY_ORIENTATION_0;
      op_clear_screen 0; op_set_display_orientation 9]) /\
  resolution_matches
    (run_operations bus_ok heap_ok
       [op_set_display_orientation DISPLAY_ORIENTATION_0;
        op_clear_screen 0; op_set_display_orientation 9]
       registered_state).
Proof.
  assert (Hm : resolution_matches registered_state)
    by (eexists; split; reflexivity).
  assert (Hops : Forall (fun op => op <> op_init_lvgl)
                   [op_set_display_orientation DISPLAY_ORIENTATION_0;
                    op_clear_screen 0; op_set_display_orientation 9])
    by (repeat constructor; discriminate).
  split; [split; assumption |].
  exact (operations_keep_resolution_matching bus_ok heap_ok _
           registered_state Hm Hops).
Defined.

(** ** The completion signal and the flush path *)

Section FlushPath.

Variable bus : list call -> call -> esp_err_t.
Variable heap : list call -> Z -> bool.

Lemma window_commands_flush_calls w c :
  In c (window_commands w) -> is_flush_call c.
Proof.
  intros [<- | [<- | [<- | []]]]; left; eexists; eauto.
Qed.

Lemma set_draw_area_flush_calls x_start x_end y_start y_end :
  adds_only is_flush_call (set_draw_area bus x_start x_end y_start y_end).
Proof.
  intros st.
  destruct (set_draw_area bus x_start x_end y_start y_end st) as [r st'] eqn:E.
  cbn [snd].
  destruct (set_draw_area_spec _ _ _ _ _ _ _ _ E)
    as [_ [(_ & _ & ->) | (w & _ & [(_ & T & _) | (n & _ & _ & T & _)])]].
  - exists []; split; [now rewrite app_nil_r | constructor].
  - eexists; split; [exact T |].
    apply Forall_forall; apply window_commands_flush_calls.
  - eexists; split; [exact T |].
    apply Forall_forall; intros c Hin.
    apply (window_commands_flush_calls w), (in_firstn _ _ _ Hin).
Qed.

(** X15. The flush callback stays on the drawing path: every call it makes is
    one of the three window commands (0x2A, 0x2B, 0x2C), the pixel
    transfer, the end of the colour transfer or the completion signal.  It
    never allocates or releases memory, never writes MADCTL or the gap,
    never waits, and leaves the orientation state as it was. *)
Theorem lvgl_flush_cb_stays_on_drawing_path :
  forall area color_p st,
    (forall c,
        In c (added_by (lvgl_flush_cb bus area color_p) st) ->
        is_flush_call c) /\
    same_orientation_state st (snd (lvgl_flush_cb bus area color_p st)).
Proof.
  intros area color_p st; split; [| apply lvgl_flush_cb_frame].
  assert (H : adds_only is_flush_call (lvgl_flush_cb bus area color_p)).
  { unfold lvgl_flush_cb; cbv zeta.
    apply adds_only_bind; [apply set_draw_area_flush_calls | intros r].
    destruct (failed r); [apply adds_only_ret |].
    apply adds_only_bind.
    - unfold extern; apply adds_only_call.
      right; left; do 5 eexists; reflexivity.
    - intros r2; destruct (failed r2); [apply adds_only_ret |].
      apply adds_only_bind; [| intros _];
        unfold notify; apply adds_only_call; unfold is_flush_call; auto. }
  destruct (H st) as (added & T & F).
  rewrite (added_by_trace _ _ _ T).
  intros c Hin; exact (proj1 (Forall_forall _ added) F c Hin).
Qed.

(** X16. Only the flush callback signals completion: no other operation of the
    driver ever calls [lv_disp_flush_ready], on any path. *)
Theorem only_flush_cb_signals_completion :
  forall op st,
    (forall area color_p, op <> op_lvgl_flush_cb area color_p) ->
    exists added,
      trace (run_operation bus heap op st) = trace st ++ added /\
      ~ In lv_disp_flush_ready added.
Proof.
  intros op st Hop.
  set (Q := fun c : call => c <> lv_disp_flush_ready).
  assert (H : exists added,
             trace (run_operation bus heap op st) = trace st ++ added /\
             Forall Q added).
  { destruct op as [| | o | xs xe ys ye | color | | area color_p];
      cbn [run_operation].
    - apply adds_only_init_display; subst Q; cbv beta; discriminate.
    - exists []; cbn [init_lvgl snd set_lvgl_disp trace].
      split; [now rewrite app_nil_r | constructor].
    - apply adds_only_set_display_orientation; subst Q; cbv beta;
        discriminate.
    - apply adds_only_set_draw_area; subst Q; cbv beta; discriminate.
    - apply adds_only_clear_screen; subst Q; cbv beta; discriminate.
    - apply adds_only_test_fill_screen; subst Q; cbv beta; discriminate.
    - now elim (Hop area color_p). }
  destruct H as (added & T & F); exists added; split; [exact T |].
  intros Hin; exact (proj1 (Forall_forall Q added) F _ Hin eq_refl).
Qed.

End FlushPath.

Lemma only_flush_cb_signals_completion_witness :
  (forall area color_p, op_test_fill_screen <> op_lvgl_flush_cb area color_p) /\
  exists added,
    trace (run_operation bus_ok heap_ok op_test_fill_screen registered_state)
    = trace registered_state ++ added /\
    ~ In lv_disp_flush_ready added.
Proof.
  assert (H : forall area color_p,
             op_test_fill_screen <> op_lvgl_flush_cb area color_p)
    by discriminate.
  split; [exact H |].
  exact (only_flush_cb_signals_completion bus_ok heap_ok op_test_fill_screen
           registered_state H).
Defined.

(** ** The vendor table *)

(** What the model of the loop sends, for any list of entries. *)
Lemma send_init_cmds_trace bus cmds st :
  trace (snd (send_init_cmds bus cmds st))
  = trace st ++ flat_map init_calls_of (entries_before_marker cmds).
Proof.
  revert st; induction cmds as [| c rest IH]; intros st;
    cbn [send_init_cmds entries_before_marker flat_map].
  - cbn [ret snd]; now rewrite app_nil_r.
  - unfold is_end_marker.
    destruct (addr c =? 0); destruct (len c =? 255);
      cbn [negb orb andb]; cbn [flat_map];
      try (unfold bind, extern, init_calls_of;
           destruct (negb (Z.land (len c) 128 =? 0));
           unfold notify, ret; rewrite IH;
           cbn [record_call trace app]; rewrite <- ?app_assoc;
           reflexivity).
    cbn [ret snd]; now rewrite app_nil_r.
Qed.

Lemma param16_length c :
  (length (param_bytes c) <= 16)%nat -> length (param16 c) = 16%nat.
Proof.
  intros H; unfold param16.
  rewrite length_firstn, length_app, repeat_length; lia.
Qed.

Lemma param16_bytes c :
  Forall is_uint8 (param_bytes c) -> Forall is_uint8 (param16 c).
Proof.
  intros H; unfold param16; apply Forall_forall; intros z Hz.
  apply in_firstn, in_app_or in Hz; destruct Hz as [Hz | Hz].
  - exact (proj1 (Forall_forall _ _) H z Hz).
  - apply repeat_spec in Hz; subst z; unfold is_uint8; lia.
Qed.

Ltac table_entry_ok :=
  unfold well_formed_entry, is_uint8;
  cbn [addr len param_bytes length];
  repeat split;
  try (apply Z.leb_le; reflexivity); try (apply Z.ltb_lt; reflexivity);
  try (apply Nat.leb_le; reflexivity);
  repeat constructor;
  try (apply Z.leb_le; reflexivity); try (apply Z.ltb_lt; reflexivity).

Lemma lcd_st7789v_well_formed : well_formed_table lcd_st7789v.
Proof.
  split; [reflexivity |].
  split; [apply Nat.leb_le; reflexivity |].
  change (entries_before_marker lcd_st7789v) with (firstn 18 lcd_st7789v).
  cbn [firstn lcd_st7789v]; repeat (constructor; [table_entry_ok |]).
  constructor.
Qed.

(** X17. On a well-formed vendor table (one that holds an end marker within
    the reach of the loop's 8-bit index and whose entries ask for at most
    their 16 parameter bytes), as the table of the source is, the loop of
    [init_display] sends the entries in front of the first end marker one
    by one, whatever the bus answers: a refused command is logged and the
    loop goes on, so the calls made depend on the table only.  Each entry is
    one command with exactly [len & 0x7f] parameter bytes, followed by a
    delay of 120 ms when bit 7 of its length is set.  For the table of the
    source these are its first 18 entries, and none of them is the MADCTL
    command (0x36), which is left to [set_display_orientation]. *)
Theorem send_init_cmds_calls :
  forall bus cmds st,
    well_formed_table cmds ->
    trace (snd (send_init_cmds bus cmds st))
    = trace st ++ flat_map init_calls_of (entries_before_marker cmds) /\
    same_orientation_state st (snd (send_init_cmds bus cmds st)) /\
    (forall c,
        In c (entries_before_marker cmds) ->
        exists params,
          init_calls_of c
          = esp_lcd_panel_io_tx_param (addr c) params
            :: (if negb (Z.land (len c) 0x80 =? 0)
                then [vTaskDelay 120] else []) /\
          length params = Z.to_nat (Z.land (len c) 0x7f) /\
          Forall is_uint8 params) /\
    well_formed_table lcd_st7789v /\
    entries_before_marker lcd_st7789v = firstn 18 lcd_st7789v /\
    forall c, In c (entries_before_marker lcd_st7789v) -> addr c <> 0x36.
Proof.
  intros bus cmds st (_ & _ & Hwf).
  split; [apply send_init_cmds_trace |].
  split; [apply send_init_cmds_frame |].
  split.
  { intros c Hin.
    destruct (proj1 (Forall_forall _ _) Hwf c Hin)
      as (_ & (Hl0 & _) & Hb & Hn & Hl).
    eexists; split; [reflexivity |]; split.
    - rewrite length_firstn, (param16_length c Hn).
      assert (0 <= Z.land (len c) 127) by (apply Z.land_nonneg; lia).
      lia.
    - apply Forall_forall; intros z Hz; apply in_firstn in Hz.
      exact (proj1 (Forall_forall _ _) (param16_bytes c Hb) z Hz). }
  split; [apply lcd_st7789v_well_formed |].
  split; [reflexivity |].
  intros c Hin.
  change (entries_before_marker lcd_st7789v)
    with (firstn 18 lcd_st7789v) in Hin.
  cbn [firstn lcd_st7789v] in Hin.
  repeat (destruct Hin as [<- | Hin]; [cbn [addr]; discriminate |]).
  destruct Hin.
Qed.

Lemma send_init_cmds_calls_witness :
  well_formed_table lcd_st7789v /\
  trace (snd (send_init_cmds (bus_refusing 0x3A) lcd_st7789v initial_state))
  = trace initial_state
    ++ flat_map init_calls_of (entries_before_marker lcd_st7789v).
Proof.
  split; [apply lcd_st7789v_well_formed |].
  exact (proj1 (send_init_cmds_calls (bus_refusing 0x3A) lcd_st7789v
                  initial_state lcd_st7789v_well_formed)).
Defined.

(** ** The buffer of the edge test *)

Lemma nth_flat_map_rows {A} (f : nat -> list A) (h : nat) (d : A) :
  (forall i, length (f i) = h) ->
  forall v s x y,
    (x < h)%nat -> (y < v)%nat ->
    nth (y * h + x) (flat_map f (seq s v)) d = nth x (f (s + y)%nat) d.
Proof.
  intros Hlen; induction v as [| v IH]; intros s x y Hx Hy; [lia |].
  cbn [seq flat_map].
  destruct y as [| y].
  - rewrite app_nth1 by (rewrite Hlen; lia).
    now rewrite Nat.add_0_r.
  - rewrite app_nth2 by (rewrite Hlen; nia).
    rewrite Hlen.
    replace (S y * h + x - h)%nat with (y * h + x)%nat by nia.
    rewrite IH by lia.
    now replace (S s + y)%nat with (s + S y)%nat by lia.
Qed.

Lemma length_flat_map_rows {A} (f : nat -> list A) (h : nat) :
  (forall i, length (f i) = h) ->
  forall v s, length (flat_map f (seq s v)) = (v * h)%nat.
Proof.
  intros Hlen; induction v as [| v IH]; intros s; [reflexivity |].
  cbn [seq flat_map]; rewrite length_app, Hlen, IH; lia.
Qed.

(** The element the two loops leave at index [y * hor_res + x]. *)
Lemma edge_buffer_nth hor_res ver_res x y :
  0 <= x < hor_res -> 0 <= y < ver_res ->
  nth (Z.to_nat (y * hor_res + x)) (edge_buffer hor_res ver_res) 0
  = edge_pixel hor_res ver_res x y.
Proof.
  intros Hx Hy.
  assert (Hrow : forall i : nat,
             length (edge_row hor_res ver_res (Z.of_nat i))
             = Z.to_nat hor_res)
    by (intros i; unfold edge_row; now rewrite length_map, length_seq).
  unfold edge_buffer.
  replace (Z.to_nat (y * hor_res + x))
    with (Z.to_nat y * Z.to_nat hor_res + Z.to_nat x)%nat
    by (rewrite Z2Nat.inj_add, Z2Nat.inj_mul by nia; reflexivity).
  rewrite (nth_flat_map_rows _ _ 0 Hrow) by lia.
  cbn [Nat.add]; rewrite Z2Nat.id by lia.
  unfold edge_row.
  rewrite (nth_indep _ 0 (edge_pixel hor_res ver_res (Z.of_nat 0) y))
    by (rewrite length_map, length_seq; lia).
  rewrite (map_nth (fun x0 => edge_pixel hor_res ver_res (Z.of_nat x0) y)).
  rewrite seq_nth by lia.
  cbn [Nat.add]; now rewrite Z2Nat.id by lia.
Qed.

Lemma edge_buffer_length hor_res ver_res :
  0 <= hor_res -> 0 <= ver_res ->
  length (edge_buffer hor_res ver_res) = Z.to_nat (hor_res * ver_res).
Proof.
  intros Hh Hv; unfold edge_buffer.
  rewrite (length_flat_map_rows _ (Z.to_nat hor_res))
    by (intros i; unfold edge_row; now rewrite length_map, length_seq).
  rewrite Z2Nat.inj_mul by lia; lia.
Qed.

(** X18. The two loops of the edge test write every element of the buffer:
    it holds [hor_res * ver_res] pixels, and the pixel of column [x] and row
    [y], at index [y * hor_res + x], is red (0xF800) in the top 30 rows,
    blue (0x001F) in the bottom 30 rows, and between them green (0x07E0) in
    the left 30 columns, white (0xFFFF) in the right 30 columns and black
    (0x0000) elsewhere; top wins over bottom, the rows over the columns and
    left over right where stripes meet. *)
Theorem edge_buffer_pixels :
  forall hor_res ver_res x y,
    0 <= x < hor_res -> 0 <= y < ver_res ->
    is_int hor_res -> is_int ver_res ->
    let pixel :=
      nth (Z.to_nat (y * hor_res + x)) (edge_buffer hor_res ver_res) 0 in
    length (edge_buffer hor_res ver_res) = Z.to_nat (hor_res * ver_res) /\
    (y < 30 -> pixel = 0xF800) /\
    (30 <= y -> ver_res - 30 <= y -> pixel = 0x001F) /\
    (30 <= y < ver_res - 30 -> x < 30 -> pixel = 0x07E0) /\
    (30 <= y < ver_res - 30 -> 30 <= x -> hor_res - 30 <= x ->
     pixel = 0xFFFF) /\
    (30 <= y < ver_res - 30 -> 30 <= x < hor_res - 30 -> pixel = 0x0000).
Proof.
  intros hor ver x y Hx Hy Hh Hv pixel; subst pixel.
  split; [apply edge_buffer_length; lia |].
  rewrite (edge_buffer_nth hor ver x y Hx Hy).
  unfold edge_pixel.
  rewrite (sub_int_exact ver 30), (sub_int_exact hor 30)
    by (unfold is_int in *; lia).
  rewrite !Z.geb_leb.
  destruct (Z.ltb_spec y 30); destruct (Z.leb_spec (ver - 30) y);
    destruct (Z.ltb_spec x 30); destruct (Z.leb_spec (hor - 30) x);
    repeat split; intros; try reflexivity; lia.
Qed.

Lemma edge_buffer_pixels_witness :
  (0 <= 319 < 320 /\ 0 <= 100 < 170 /\ is_int 320 /\ is_int 170) /\
  nth (Z.to_nat (100 * 320 + 319)) (edge_buffer 320 170) 0 = 0xFFFF.
Proof.
  assert (Hx : 0 <= 319 < 320) by lia.
  assert (Hy : 0 <= 100 < 170) by lia.
  assert (Hh : is_int 320) by (apply small_is_int; lia).
  assert (Hv : is_int 170) by (apply small_is_int; lia).
  split; [repeat split; solve [apply Hx | apply Hy | apply Hh | apply Hv] |].
  destruct (edge_buffer_pixels 320 170 319 100 Hx Hy Hh Hv)
    as (_ & _ & _ & _ & Hwhite & _).
  apply Hwhite; lia.
Defined.

(** ** The display test *)

Section DisplayTestRun.

Variable bus : list call -> call -> esp_err_t.
Variable heap : list call -> Z -> bool.

Hypothesis heap_always : forall t, heap t 108800 = true.

Lemma fill_colors_recovered colors st :
  valid_orientation (current_orientation st) ->
  recovered bus st ->
  trace (snd (fill_colors bus heap colors st))
  = trace st ++
    flat_map (fun color =>
                full_panel_calls (current_orientation st)
                  (fill_buffer 54400 color) ++ [vTaskDelay 2000])
             colors.
Proof.
  revert st; induction colors as [| color rest IH]; intros st Hv Hrec;
    cbn [fill_colors flat_map].
  - cbn [ret snd]; now rewrite app_nil_r.
  - unfold bind at 1.
    destruct (clear_screen_recovered bus heap color st Hv (heap_always _) Hrec)
      as [_ T].
    pose proof (clear_screen_frame bus heap color st) as [Ho _].
    destruct (clear_screen bus heap color st) as [r st1]; cbn [snd] in *.
    unfold bind at 1, notify.
    set (st2 := record_call (vTaskDelay 2000) st1).
    assert (T2 : trace st2
                 = trace st ++
                   (full_panel_calls (current_orientation st)
                      (fill_buffer 54400 color) ++ [vTaskDelay 2000]))
      by (subst st2; cbn [record_call trace]; rewrite T;
          now rewrite <- app_assoc).
    assert (Ho2 : current_orientation st2 = current_orientation st)
      by (subst st2; exact Ho).
    rewrite IH.
    + rewrite T2, Ho2, <- !app_assoc; reflexivity.
    + now rewrite Ho2.
    + exact (recovered_later bus st st2 _ T2 Hrec).
Qed.

(** X19. A full run of the display test: with the allocations served and the
    bus accepting the calls, [test_fill_screen] draws the whole panel six
    times, in every orientation: once per colour in the order red, blue,
    green, black, white, each followed by a delay of two seconds, then the
    stripes buffer, followed by a delay of five seconds.  Every buffer is
    released before the next one is allocated, and the orientation state is
    untouched. *)
Theorem test_fill_screen_run :
  forall st,
    valid_orientation (current_orientation st) ->
    recovered bus st ->
    let o := current_orientation st in
    added_by (test_fill_screen bus heap) st
    = flat_map (fun color =>
                  full_panel_calls o (fill_buffer 54400 color)
                  ++ [vTaskDelay 2000])
               [0xF800; 0x001F; 0x07E0; 0x0000; 0xFFFF]
      ++ full_panel_calls o
           (edge_buffer (if is_portrait o then 170 else 320)
                        (if is_portrait o then 320 else 170))
      ++ [vTaskDelay 5000] /\
    same_orientation_state st (snd (test_fill_screen bus heap st)).
Proof.
  intros st Hv Hrec o; split; [| apply keeps_test_fill_screen].
  apply added_by_trace.
  unfold test_fill_screen, bind at 1.
  pose proof (fill_colors_recovered test_colors st Hv Hrec) as T.
  pose proof (keeps_fill_colors bus heap test_colors st) as [Ho _].
  destruct (fill_colors bus heap test_colors st) as [u st1]; cbn [snd] in *.
  assert (Hrec1 : recovered bus st1)
    by exact (recovered_later bus st st1 _ T Hrec).
  destruct (clear_screen_size (current_orientation st1)) as [_ Hsize].
  cbv zeta in Hsize; cbv zeta.
  unfold bind at 1, malloc; rewrite Hsize, heap_always; cbn [negb].
  set (st2 := record_call (heap_caps_malloc 108800) st1).
  assert (Hrec2 : recovered bus st2)
    by (apply (recovered_later bus st1 st2 [heap_caps_malloc 108800]);
        [reflexivity | exact Hrec1]).
  assert (Hv2 : valid_orientation (current_orientation st2))
    by (subst st2; cbn [record_call current_orientation]; now rewrite Ho).
  unfold bind at 1.
  destruct (set_draw_area_recovered bus 0
              (sub_int (if is_portrait (current_orientation st1)
                        then LCD_H_RES else LCD_V_RES) 1) 0
              (sub_int (if is_portrait (current_orientation st1)
                        then LCD_V_RES else LCD_H_RES) 1) st2 Hv2 Hrec2)
    as (w & st3 & Tw & S & Tr & _).
  change (current_orientation st2) with (current_orientation st1) in Tw.
  rewrite (translate_full_surface (current_orientation st1)) in Tw
    by (now rewrite Ho).
  inversion Tw; subst w; clear Tw.
  rewrite S; change (failed ESP_OK) with false; cbv iota.
  unfold bind, extern, notify; cbn [snd record_call trace].
  rewrite Tr; subst st2; cbn [record_call trace]; rewrite T, Ho.
  unfold test_colors, full_panel_calls, LCD_H_RES, LCD_V_RES; subst o.
  rewrite <- !app_assoc; cbn [app window_commands]; reflexivity.
Qed.

End DisplayTestRun.

Lemma test_fill_screen_run_witness :
  (valid_orientation (current_orientation registered_state) /\
   recovered bus_ok registered_state) /\
  same_orientation_state registered_state
    (snd (test_fill_screen bus_ok heap_ok registered_state)).
Proof.
  assert (Hv : valid_orientation (current_orientation registered_state))
    by (right; left; reflexivity).
  assert (Hr : recovered bus_ok registered_state)
    by (intros later c; reflexivity).
  split; [split; assumption |].
  exact (proj2 (test_fill_screen_run bus_ok heap_ok (fun _ => eq_refl)
                  registered_state Hv Hr)).
Defined.

(** ** Bring-up *)

Section Bringup.

Variable bus : list call -> call -> esp_err_t.
Variable heap : list call -> Z -> bool.

(** The calls of an accepted orientation, in order: MADCTL first, always;
    the gap write next, once MADCTL is accepted; and with both accepted the
    orientation is stored. *)
Lemma set_display_orientation_calls orientation p st :
  orientation_switch orientation = Some p ->
  let st' := snd (set_display_orientation bus heap orientation st) in
  exists rest,
    trace st' = trace st ++ madctl_command p :: rest /\
    (madctl_result bus p st <> ESP_OK -> rest = []) /\
    (madctl_result bus p st = ESP_OK ->
     exists rest',
       rest = gap_command p :: rest' /\
       (gap_result bus p st <> ESP_OK -> rest' = []) /\
       (gap_result bus p st = ESP_OK ->
        current_orientation st' = orientation /\
        lvgl_disp st' = with_resolution p (lvgl_disp st))).
Proof.
  intros Sw st'; subst st'.
  pose proof (set_display_orientation_spec bus heap orientation st) as S.
  rewrite set_display_orientation_unfold, Sw in *; cbv zeta in *.
  destruct (failed (madctl_result bus p st)) eqn:F1.
  { apply failed_true in F1.
    exists []; cbn [snd record_call trace].
    split; [reflexivity |]; split; [auto | intros H; contradiction]. }
  apply failed_false in F1.
  destruct (failed (gap_result bus p st)) eqn:F2.
  { apply failed_true in F2.
    exists [gap_command p]; cbn [snd record_call trace].
    rewrite <- app_assoc; split; [reflexivity |].
    split; [intros H; contradiction |].
    intros _; exists []; split; [reflexivity |].
    split; [auto | intros H; contradiction]. }
  apply failed_false in F2.
  set (st2 := set_current_orientation orientation _) in *.
  destruct (heap_effect_update_lvgl_resolution heap orientation p
              (fun _ => 0) eq_refl st2) as (e3 & T3 & _).
  destruct (update_lvgl_resolution orientation p st2) as [u st3];
    cbn [snd] in T3.
  destruct (heap_effect_clear_screen bus heap 0 (fun _ => 0)
              (fun _ => eq_refl) st3) as (e4 & T4 & _).
  destruct (clear_screen bus heap 0 st3) as [r st4]; cbn [snd] in T4.
  assert (Hst : forall b : bool,
             snd (if b then (r, st4) else (ESP_OK, st4)) = st4)
    by (intros [|]; reflexivity).
  rewrite Hst in *.
  exists (gap_command p :: e3 ++ e4); split.
  { rewrite T4, T3; subst st2.
    cbn [set_current_orientation record_call trace].
    rewrite <- !app_assoc; reflexivity. }
  split; [intros H; contradiction |].
  intros _; exists (e3 ++ e4); split; [reflexivity |].
  split; [intros H; contradiction | intros _; exact S].
Qed.

(** C10. The program starts in orientation 90 degrees.  It is the static
    initial value of [current_orientation].  It is the orientation the
    display bring-up applies: from whatever state, [init_display] sends the
    vendor table and then the MADCTL command with 0x68, the byte of 90
    degrees; once that is accepted, the gap write (0, 35); and once that is
    accepted too, [current_orientation] is 90 degrees, whatever it was
    before.  From the initial state it is 90 degrees after [init_display]
    also when the panel refused the commands.  After [init_lvgl] the
    orientation is still 90 degrees and the resolution handed to the renderer
    is 320 x 170, the one of 90 degrees (when LVGL returns no display there
    is none to hold it). *)
Theorem startup_orientation_90 :
  current_orientation initial_state = DISPLAY_ORIENTATION_90 /\
  current_orientation (snd (init_display bus heap initial_state))
  = DISPLAY_ORIENTATION_90 /\
  current_orientation (snd (startup bus heap initial_state))
  = DISPLAY_ORIENTATION_90 /\
  lvgl_disp (snd (startup bus heap initial_state))
  = Some {| drv_hor_res := 320; drv_ver_res := 170 |} /\
  orientation_switch (current_orientation (snd (startup bus heap initial_state)))
  = Some {| madctl := 0x68; hor_res := 320; ver_res := 170;
            x_gap := 0; y_gap := 35 |} /\
  (forall st,
      let st1 := snd (send_init_cmds bus lcd_st7789v st) in
      let st' := snd (init_display bus heap st) in
      let madctl_90 := esp_lcd_panel_io_tx_param 0x36 [0x68] in
      let gap_90 := esp_lcd_panel_set_gap 0 35 in
      trace st1
      = trace st ++ flat_map init_calls_of (firstn 18 lcd_st7789v) /\
      exists rest,
        trace st' = trace st1 ++ madctl_90 :: rest /\
        (bus (trace st1) madctl_90 <> ESP_OK ->
         rest = [] /\ same_orientation_state st st') /\
        (bus (trace st1) madctl_90 = ESP_OK ->
         exists rest',
           rest = gap_90 :: rest' /\
           (bus (trace st1 ++ [madctl_90]) gap_90 <> ESP_OK ->
            rest' = [] /\ same_orientation_state st st') /\
           (bus (trace st1 ++ [madctl_90]) gap_90 = ESP_OK ->
            current_orientation st' = DISPLAY_ORIENTATION_90 /\
            lvgl_disp st'
            = match lvgl_disp st with
              | Some _ => Some {| drv_hor_res := 320; drv_ver_res := 170 |}
              | None => None
              end))) /\
  (forall registered,
      let st := snd (startup_outcome bus heap registered initial_state) in
      current_orientation st = DISPLAY_ORIENTATION_90 /\
      lvgl_disp st
      = (if registered
         then Some {| drv_hor_res := 320; drv_ver_res := 170 |}
         else None) /\
      resolution_matches st).
Proof.
  destruct (init_display_orientation bus heap initial_state eq_refl)
    as [H90 _].
  split; [reflexivity |].
  split; [exact H90 |].
  assert (Hstart : forall registered,
             current_orientation
               (snd (startup_outcome bus heap registered initial_state))
             = DISPLAY_ORIENTATION_90 /\
             lvgl_disp (snd (startup_outcome bus heap registered initial_state))
             = (if registered
                then Some {| drv_hor_res := 320; drv_ver_res := 170 |}
                else None)).
  { intros registered; unfold startup_outcome, bind.
    destruct (init_display bus heap initial_state) as [u st1]; cbn [snd] in *.
    unfold init_lvgl_outcome;
      cbn [snd set_lvgl_disp current_orientation lvgl_disp].
    split; [exact H90 | destruct registered; reflexivity]. }
  assert (Hsame : startup bus heap initial_state
                  = startup_outcome bus heap true initial_state)
    by reflexivity.
  destruct (Hstart true) as [Ho Hd]; rewrite <- Hsame in Ho, Hd.
  split; [exact Ho |]; split; [exact Hd |].
  split; [rewrite Ho; reflexivity |].
  split.
  - intros st; cbv zeta.
    split; [rewrite send_init_cmds_trace; reflexivity |].
    unfold init_display, bind.
    pose proof (send_init_cmds_frame bus lcd_st7789v st) as Hf.
    destruct (send_init_cmds bus lcd_st7789v st) as [u st1]; cbn [snd] in *.
    pose proof (set_display_orientation_calls DISPLAY_ORIENTATION_90 _ st1
                  eq_refl) as Hc; cbv zeta in Hc.
    pose proof (set_display_orientation_spec bus heap
                  DISPLAY_ORIENTATION_90 st1) as S.
    change (orientation_switch DISPLAY_ORIENTATION_90)
      with (Some {| madctl := 0x68; hor_res := LCD_V_RES;
                    ver_res := LCD_H_RES; x_gap := 0; y_gap := 35 |}) in S.
    cbv iota in S.
    destruct (set_display_orientation bus heap DISPLAY_ORIENTATION_90 st1)
      as [r st2]; cbn [snd ret] in *.
    destruct Hc as (rest & T & Hrefused & Haccepted).
    unfold madctl_result, gap_result, madctl_command, gap_command in *.
    cbn [madctl x_gap y_gap] in *.
    exists rest; split; [exact T |]; split.
    + intros Hm; split; [now apply Hrefused |].
      apply failed_true in Hm as Fm; rewrite Fm in S.
      inversion S; subst.
      eapply same_orientation_state_trans;
        [exact Hf | apply same_orientation_state_record].
    + intros Hm; destruct (Haccepted Hm) as (rest' & -> & Hg & Hboth).
      exists rest'; split; [reflexivity |]; split.
      * intros Hgap; split; [now apply Hg |].
        apply failed_false in Hm as Fm; rewrite Fm in S.
        apply failed_true in Hgap as Fg; rewrite Fg in S.
        inversion S; subst.
        eapply same_orientation_state_trans; [exact Hf |].
        eapply same_orientation_state_trans;
          apply same_orientation_state_record.
      * intros Hgap; destruct (Hboth Hgap) as [Ho' Hd'].
        split; [exact Ho' |].
        rewrite Hd'; destruct Hf as [_ ->].
        destruct (lvgl_disp st); reflexivity.
  - intros registered; cbv zeta.
    destruct (Hstart registered) as [Ho' Hd'].
    split; [exact Ho' |]; split; [exact Hd' |].
    unfold resolution_matches; rewrite Hd', Ho'.
    destruct registered; [| exact I].
    eexists; split; reflexivity.
Qed.

End Bringup.

(** Bring-up from another orientation: started at 0 degrees with a
    registered driver, on an accepting bus, [init_display] leaves 90
    degrees and 320 x 170; with MADCTL refused it leaves the state as it
    was, after the vendor table and the one refused command. *)
Example init_display_from_0 :
  let st0 := {| current_orientation := DISPLAY_ORIENTATION_0;
                lvgl_disp := Some {| drv_hor_res := 170; drv_ver_res := 320 |};
                trace := [] |} in
  current_orientation (snd (init_display bus_ok heap_ok st0))
  = DISPLAY_ORIENTATION_90 /\
  lvgl_disp (snd (init_display bus_ok heap_ok st0))
  = Some {| drv_hor_res := 320; drv_ver_res := 170 |} /\
  nth 20 (trace (snd (init_display bus_ok heap_ok st0))) free
  = esp_lcd_panel_io_tx_param 0x36 [0x68] /\
  nth 21 (trace (snd (init_display bus_ok heap_ok st0))) free
  = esp_lcd_panel_set_gap 0 35 /\
  current_orientation (snd (init_display (bus_refusing 0x36) heap_ok st0))
  = DISPLAY_ORIENTATION_0 /\
  length (trace (snd (init_display (bus_refusing 0x36) heap_ok st0)))
  = 21%nat.
Proof. cbv zeta; repeat split. Qed.
